(** * Scannerv2: a shallow embedding of [Main.py]

    The script prints a banner, pretends to scan a web site, stores the
    fabricated findings as JSON under the directory [scans] and lists the
    stored files.  Everything the script does is an effect (console,
    clock, random numbers, file system), so the embedding is a state and
    exception monad over an explicit [World].

    Conventions.
    - A Python [str] is a Rocq [string]; a character stands for the code
      point of the same number, so the data strings of the model are the
      Python strings whose code points are below 256.  The banner constant
      is kept as the bytes of the source file.
    - What the environment decides (the clock, the random generator, the
      behaviour of the disk, the sound mixer) is an oracle stored in the
      [World] and consumed in order. *)

From Stdlib Require Import Ascii.
From stdpp Require Import gmap strings list fin_maps sorting pretty.

#[local] Set Warnings "-register-all".

(** ** Exceptions and outcomes *)

(** A Python exception: the name of its class and [str(e)]. *)
Record exn := Exn { exn_class : string; exn_msg : string }.

Global Instance exn_eq_dec : EqDecision exn.
Proof. solve_decision. Defined.

Inductive outcome (A : Type) : Type :=
  | Return (a : A)
  | Raise (e : exn).
Global Arguments Return {A} a.
Global Arguments Raise {A} e.

Definition raised {A} (o : outcome A) : option string :=
  match o with
  | Return _ => None
  | Raise e => Some (exn_class e)
  end.

(** ** Dates *)

(** The fields of a [datetime.datetime] value. *)
Record datetime := DateTime {
  year : nat; month : nat; day : nat;
  hour : nat; minute : nat; second : nat;
  microsecond : nat
}.

Global Instance datetime_eq_dec : EqDecision datetime.
Proof. solve_decision. Defined.

Definition days_in_month (y m : nat) : nat :=
  match m with
  | 2 => if decide (y mod 4 = 0 ∧ (y mod 100 ≠ 0 ∨ y mod 400 = 0))
         then 29 else 28
  | 4 | 6 | 9 | 11 => 30
  | _ => 31
  end.

(** The values [datetime.now()] can produce whose year has four digits (for
    these every platform prints [%Y] alike).  The microsecond is left free:
    neither format of the script prints it. *)
Definition valid_datetime (t : datetime) : Prop :=
  1000 ≤ year t < 100 * 100 ∧ 1 ≤ month t ≤ 12 ∧
  1 ≤ day t ≤ days_in_month (year t) (month t) ∧
  hour t < 24 ∧ minute t < 60 ∧ second t < 60.

Global Instance valid_datetime_dec t : Decision (valid_datetime t).
Proof. unfold valid_datetime. apply _. Defined.

(** Python compares datetimes field by field. *)
Definition lex (c1 c2 : comparison) : comparison :=
  match c1 with Eq => c2 | _ => c1 end.

Definition second_compare (t1 t2 : datetime) : comparison :=
  lex (year t1 ?= year t2)
  (lex (month t1 ?= month t2)
  (lex (day t1 ?= day t2)
  (lex (hour t1 ?= hour t2)
  (lex (minute t1 ?= minute t2) (second t1 ?= second t2))))).

Definition datetime_compare (t1 t2 : datetime) : comparison :=
  lex (second_compare t1 t2) (microsecond t1 ?= microsecond t2).

(** [t1] and [t2] lie in the same second. *)
Definition same_second (t1 t2 : datetime) : Prop :=
  second_compare t1 t2 = Eq.

Definition digit (d : nat) : ascii := ascii_of_nat (48 + d).

Definition pad2 (n : nat) : string :=
  String (digit (n / 10 mod 10)) (String (digit (n mod 10)) "").

Definition pad4 (n : nat) : string :=
  String (digit (n / 1000 mod 10)) (String (digit (n / 100 mod 10)) (pad2 n)).

(** [t.strftime("%Y-%m-%d %H:%M:%S")] *)
Definition strftime_display (t : datetime) : string :=
  pad4 (year t) +:+ "-" +:+ pad2 (month t) +:+ "-" +:+ pad2 (day t) +:+ " "
  +:+ pad2 (hour t) +:+ ":" +:+ pad2 (minute t) +:+ ":" +:+ pad2 (second t).

(** [t.strftime("%Y%m%d_%H%M%S")] *)
Definition strftime_stamp (t : datetime) : string :=
  pad4 (year t) +:+ pad2 (month t) +:+ pad2 (day t) +:+ "_"
  +:+ pad2 (hour t) +:+ pad2 (minute t) +:+ pad2 (second t).

(** ** The scan record *)

Record Finding := MkFinding {
  f_type : string;
  f_severity : string;
  f_recommendation : string
}.

(** The dict built at lines 70-74, called [findings] in the source. *)
Record ScanRecord := MkScan {
  url : string;
  scan_time : string;
  findings : list Finding
}.

Global Instance Finding_eq_dec : EqDecision Finding.
Proof. solve_decision. Defined.
Global Instance ScanRecord_eq_dec : EqDecision ScanRecord.
Proof. solve_decision. Defined.

(** [findings["findings"].append(f)] *)
Definition append_finding (r : ScanRecord) (f : Finding) : ScanRecord :=
  {| url := url r; scan_time := scan_time r; findings := findings r ++ [f] |}.

(** ** JSON, as [json.dump(..., indent=4)] writes it and [json.load] reads it *)

(** The Python values the script serialises: [str], [list] and [dict] with
    string keys.  A dict keeps its insertion order, so it is a list of
    items; its keys are pairwise distinct ([json_wf]). *)
Inductive json : Type :=
  | JStr (s : string)
  | JList (l : list json)
  | JDict (items : list (string * json)).

Definition json_of_finding (f : Finding) : json :=
  JDict [("type", JStr (f_type f)); ("severity", JStr (f_severity f));
         ("recommendation", JStr (f_recommendation f))].

Definition json_of_scan (r : ScanRecord) : json :=
  JDict [("url", JStr (url r)); ("scan_time", JStr (scan_time r));
         ("findings", JList (json_of_finding <$> findings r))].

Definition dquote : ascii := "034"%char.
Definition newline : ascii := "010"%char.

Module Json.

(** *** Encoder ([json.encoder], [ensure_ascii=True]) *)

Definition hex_digit (n : nat) : ascii :=
  if n <? 10 then ascii_of_nat (48 + n) else ascii_of_nat (87 + n).

(** One character of [py_encode_basestring_ascii]: [ESCAPE_DCT] first,
    printable ASCII unchanged, everything else as [\u00xx]. *)
Definition escape_char (c : ascii) : string :=
  let n := nat_of_ascii c in
  if Ascii.eqb c dquote then String "\" (String dquote "")
  else if Ascii.eqb c "\" then "\\"
  else if Ascii.eqb c "008" then "\b"
  else if Ascii.eqb c "012" then "\f"
  else if Ascii.eqb c "010" then "\n"
  else if Ascii.eqb c "013" then "\r"
  else if Ascii.eqb c "009" then "\t"
  else if (32 <=? n) && (n <=? 126) then String c ""
  else "\u00" +:+ String (hex_digit (n / 16)) (String (hex_digit (n mod 16)) "").

Fixpoint escape (s : string) : string :=
  match s with
  | "" => ""
  | String c s' => escape_char c +:+ escape s'
  end.

Definition encode_str (s : string) : string :=
  String dquote (escape s +:+ String dquote "").

Fixpoint spaces (n : nat) : string :=
  match n with 0 => "" | S n' => String " " (spaces n') end.

(** ["\n" + " " * (4 * level)] *)
Definition newline_indent (level : nat) : string :=
  String newline (spaces (4 * level)).

(** [_iterencode] with [indent=4], hence separators [","] and [": "]. *)
Fixpoint encode (level : nat) (v : json) : string :=
  match v with
  | JStr s => encode_str s
  | JList [] => "[]"
  | JList (x :: xs) =>
      "[" +:+ newline_indent (S level) +:+ encode (S level) x +:+
      (fix more (l : list json) : string :=
         match l with
         | [] => newline_indent level +:+ "]"
         | y :: l' =>
             "," +:+ newline_indent (S level) +:+ encode (S level) y +:+ more l'
         end) xs
  | JDict [] => "{}"
  | JDict ((k, x) :: xs) =>
      "{" +:+ newline_indent (S level) +:+ encode_str k +:+ ": " +:+
      encode (S level) x +:+
      (fix more (l : list (string * json)) : string :=
         match l with
         | [] => newline_indent level +:+ "}"
         | (k', y) :: l' =>
             "," +:+ newline_indent (S level) +:+ encode_str k' +:+ ": " +:+
             encode (S level) y +:+ more l'
         end) xs
  end.

(** [json.dumps(v, indent=4)] *)
Definition dumps (v : json) : string := encode 0 v.

(** *** Decoder ([json.decoder], [strict=True]) *)

Definition is_ws (c : ascii) : bool :=
  Ascii.eqb c " " || Ascii.eqb c "009" || Ascii.eqb c "010" || Ascii.eqb c "013".

Fixpoint skip_ws (s : string) : string :=
  match s with
  | "" => ""
  | String c s' => if is_ws c then skip_ws s' else s
  end.

Definition hex_value (c : ascii) : option nat :=
  let n := nat_of_ascii c in
  if (48 <=? n) && (n <=? 57) then Some (n - 48)
  else if (97 <=? n) && (n <=? 102) then Some (n - 87)
  else if (65 <=? n) && (n <=? 70) then Some (n - 55)
  else None.

Definition decode_uXXXX (h1 h2 h3 h4 : ascii) : option nat :=
  a ← hex_value h1; b ← hex_value h2; c ← hex_value h3; d ← hex_value h4;
  Some (((a * 16 + b) * 16 + c) * 16 + d).

(** The table [BACKSLASH]. *)
Definition BACKSLASH (e : ascii) : option ascii :=
  if Ascii.eqb e dquote then Some dquote
  else if Ascii.eqb e "\" then Some "\"%char
  else if Ascii.eqb e "/" then Some "/"%char
  else if Ascii.eqb e "b" then Some "008"%char
  else if Ascii.eqb e "f" then Some "012"%char
  else if Ascii.eqb e "n" then Some "010"%char
  else if Ascii.eqb e "r" then Some "013"%char
  else if Ascii.eqb e "t" then Some "009"%char
  else None.

Definition cons_char (c : ascii) (r : option (string * string))
  : option (string * string) :=
  '(str, rest) ← r; Some (String c str, rest).

(** [scanstring], entered after the opening quote: the decoded string and
    the text after the closing quote.  The four characters of a [\uXXXX]
    escape are hexadecimal digits; an escape above 255 denotes a character
    outside the strings of this model. *)
Fixpoint scanstring (s : string) : option (string * string) :=
  match s with
  | "" => None
  | String c rest =>
      if Ascii.eqb c dquote then Some ("", rest)
      else if Ascii.eqb c "\" then
        match rest with
        | "" => None
        | String e rest1 =>
            if Ascii.eqb e "u" then
              match rest1 with
              | String h1 (String h2 (String h3 (String h4 rest2))) =>
                  match decode_uXXXX h1 h2 h3 h4 with
                  | Some n =>
                      if n <? 256 then cons_char (ascii_of_nat n) (scanstring rest2)
                      else None
                  | None => None
                  end
              | _ => None
              end
            else
              match BACKSLASH e with
              | Some ch => cons_char ch (scanstring rest1)
              | None => None
              end
        end
      else if nat_of_ascii c <? 32 then None
      else cons_char c (scanstring rest)
  end.

(** [d[k] = v] on an insertion-ordered dict. *)
Fixpoint dict_set (k : string) (v : json) (d : list (string * json))
  : list (string * json) :=
  match d with
  | [] => [(k, v)]
  | (k', v') :: d' =>
      if decide (k = k') then (k, v) :: d' else (k', v') :: dict_set k v d'
  end.

(** [dict(pairs)] *)
Definition dict_of_pairs (pairs : list (string * json)) : list (string * json) :=
  fold_left (λ d kv, dict_set kv.1 kv.2 d) pairs [].

(** [scan_once], [JSONArray] and [JSONObject], for the three kinds of values
    above: a text that starts a number, [true], [false] or [null] is outside
    the model and is refused like a malformed one.  The recursion of the
    decoder follows the nesting of the text; [fuel] bounds it, and [loads]
    supplies the length of the text. *)
Fixpoint scan_once (fuel : nat) (s : string) : option (json * string) :=
  match fuel with
  | 0 => None
  | S fuel' =>
      match s with
      | "" => None
      | String c rest =>
          if Ascii.eqb c dquote then
            '(str, r) ← scanstring rest; Some (JStr str, r)
          else if Ascii.eqb c "[" then
            match skip_ws rest with
            | String "]" r => Some (JList [], r)
            | s1 => '(vs, r) ← array_items fuel' s1; Some (JList vs, r)
            end
          else if Ascii.eqb c "{" then
            match skip_ws rest with
            | String "}" r => Some (JDict [], r)
            | s1 => '(ps, r) ← object_items fuel' s1;
                    Some (JDict (dict_of_pairs ps), r)
            end
          else None
      end
  end
with array_items (fuel : nat) (s : string) : option (list json * string) :=
  match fuel with
  | 0 => None
  | S fuel' =>
      '(v, r) ← scan_once fuel' s;
      match skip_ws r with
      | String "]" r' => Some ([v], r')
      | String "," r' =>
          '(vs, r'') ← array_items fuel' (skip_ws r'); Some (v :: vs, r'')
      | _ => None
      end
  end
with object_items (fuel : nat) (s : string)
  : option (list (string * json) * string) :=
  match fuel with
  | 0 => None
  | S fuel' =>
      match s with
      | String c rest =>
          if Ascii.eqb c dquote then
            '(k, r) ← scanstring rest;
            match skip_ws r with
            | String ":" r1 =>
                '(v, r2) ← scan_once fuel' (skip_ws r1);
                match skip_ws r2 with
                | String "}" r' => Some ([(k, v)], r')
                | String "," r' =>
                    '(ps, r'') ← object_items fuel' (skip_ws r');
                    Some ((k, v) :: ps, r'')
                | _ => None
                end
            | _ => None
            end
          else None
      | "" => None
      end
  end.

(** [json.loads]: leading white space, one value, trailing white space and
    nothing more; any failure is a [JSONDecodeError]. *)
Definition loads (s : string) : outcome json :=
  match scan_once (String.length s) (skip_ws s) with
  | Some (v, r) =>
      if decide (skip_ws r = "") then Return v
      else Raise (Exn "JSONDecodeError" "Extra data")
  | None => Raise (Exn "JSONDecodeError" "Expecting value")
  end.

End Json.

(** ** The world the script runs in *)

Inductive event : Type :=
  | Print (line : string)      (** [print(line)] *)
  | Sleep (seconds : nat)      (** [time.sleep(seconds)] *)
  | PlayMusic (file : string). (** [pygame.mixer.music.play()] after loading [file] *)

Global Instance event_eq_dec : EqDecision event.
Proof. solve_decision. Defined.

(** What the disk does during one call of [save_scan]: each field is the
    error a step meets, if it is reached.  A failing write leaves the first
    [n] characters of the text in the file. *)
Record disk_behaviour := Disk {
  makedirs_error : option string;
  open_error : option string;
  write_error : option (nat * string)
}.

Definition healthy : disk_behaviour := Disk None None None.

Record World := MkWorld {
  scans_dir : option (gmap string string);
    (** the directory [scans]: [None] while it does not exist, else the
        text of each file by name *)
  console : list event;          (** oldest first *)
  clock : nat → datetime;        (** the successive values of [datetime.now()] *)
  clock_reads : nat;
  entropy : nat → nat;           (** the successive draws of the generator *)
  entropy_reads : nat;
  disk : nat → disk_behaviour;   (** one behaviour per call of [save_scan] *)
  disk_uses : nat;
  HAS_PYGAME : bool;
  mixer_error : option string    (** the error of the sound mixer, if any *)
}.

Definition with_scans (d : option (gmap string string)) (w : World) : World :=
  MkWorld d (console w) (clock w) (clock_reads w) (entropy w) (entropy_reads w)
          (disk w) (disk_uses w) (HAS_PYGAME w) (mixer_error w).

Definition emit (e : event) (w : World) : World :=
  MkWorld (scans_dir w) (console w ++ [e]) (clock w) (clock_reads w) (entropy w)
          (entropy_reads w) (disk w) (disk_uses w) (HAS_PYGAME w) (mixer_error w).

Definition tick_clock (w : World) : World :=
  MkWorld (scans_dir w) (console w) (clock w) (S (clock_reads w)) (entropy w)
          (entropy_reads w) (disk w) (disk_uses w) (HAS_PYGAME w) (mixer_error w).

Definition tick_entropy (w : World) : World :=
  MkWorld (scans_dir w) (console w) (clock w) (clock_reads w) (entropy w)
          (S (entropy_reads w)) (disk w) (disk_uses w) (HAS_PYGAME w) (mixer_error w).

Definition tick_disk (w : World) : World :=
  MkWorld (scans_dir w) (console w) (clock w) (clock_reads w) (entropy w)
          (entropy_reads w) (disk w) (S (disk_uses w)) (HAS_PYGAME w) (mixer_error w).

(** The files of [scans]; none while the directory is missing. *)
Definition files (w : World) : gmap string string := default ∅ (scans_dir w).

(** The lines printed so far. *)
Definition printed (w : World) : list string :=
  omap (λ e, match e with Print l => Some l | _ => None end) (console w).

(** ** The monad of effects *)

Definition M (A : Type) : Type := World → World * outcome A.

Global Instance M_ret : MRet M := λ A a w, (w, Return a).
Global Instance M_bind : MBind M := λ A B f m w,
  match m w with
  | (w', Return a) => f a w'
  | (w', Raise e) => (w', Raise e)
  end.

Definition raise {A} (e : exn) : M A := λ w, (w, Raise e).

Definition of_outcome {A} (o : outcome A) : M A := λ w, (w, o).

(** [try: body  except Exception as e: handler(e)] *)
Definition try_except {A} (body : M A) (handler : exn → M A) : M A := λ w,
  match body w with
  | (w', Return a) => (w', Return a)
  | (w', Raise e) => handler e w'
  end.

(** [for x in xs: acc = body(x, acc)] *)
Fixpoint for_each {A S} (xs : list A) (body : A → S → M S) (acc : S) : M S :=
  match xs with
  | [] => mret acc
  | x :: xs' => acc' ← body x acc; for_each xs' body acc'
  end.

Definition print (line : string) : M unit := λ w, (emit (Print line) w, Return ()).

Definition time_sleep (seconds : nat) : M unit :=
  λ w, (emit (Sleep seconds) w, Return ()).

Definition datetime_now : M datetime :=
  λ w, (tick_clock w, Return (clock w (clock_reads w))).

(** [random.randint(a, b)]: a draw brought into [a..b]. *)
Definition random_randint (a b : nat) : M nat :=
  λ w, (tick_entropy w, Return (a + entropy w (entropy_reads w) mod (b - a + 1))).

(** *** class ColorPrinter *)

Definition ESC : ascii := "027"%char.

(** The data attributes of the class, as its body defines them. *)
Definition ColorPrinter : list (string * string) :=
  [ ("RESET", String ESC "[0m");
    ("GREEN", String ESC "[92m");
    ("RED", String ESC "[91m");
    ("YELLOW", String ESC "[93m") ].

Fixpoint class_attr (attrs : list (string * string)) (name : string)
  : option string :=
  match attrs with
  | [] => None
  | (n, v) :: attrs' => if decide (n = name) then Some v else class_attr attrs' name
  end.

(** [ColorPrinter.<name>] for the name of a colour: the table holds the colour
    constants only, not [colorize] nor the attributes every class has. *)
Definition ColorPrinter_attr (name : string) : M string :=
  match class_attr ColorPrinter name with
  | Some v => mret v
  | None =>
      raise (Exn "AttributeError"
        ("type object 'ColorPrinter' has no attribute '" +:+ name +:+ "'"))
  end.

(** [ColorPrinter.colorize(color, text)] *)
Definition colorize (color text : string) : M string :=
  reset ← ColorPrinter_attr "RESET"; mret (color +:+ text +:+ reset).

(** [print(ColorPrinter.colorize(ColorPrinter.<name>, text))]: the attribute
    is read before [colorize] is called and before anything is printed. *)
Definition print_colored (name text : string) : M unit :=
  color ← ColorPrinter_attr name; line ← colorize color text; print line.

(** *** play_sound, banner *)

Definition play_sound (sound_file : string) : M unit := λ w,
  if negb (HAS_PYGAME w) then (w, Return ())
  else
    try_except
      (match mixer_error w with
       | Some msg => raise (Exn "pygame.error" msg)
       | None => λ w, (emit (PlayMusic sound_file) w, Return ())
       end)
      (λ e, print ("Warning: Could not play sound (" +:+ exn_msg e +:+ ")")) w.

(** The text between the triple quotes, as the bytes of the source. *)
Definition banner_text : string :=
  String newline "╔═╗╦  ╔═╗╔═╗╔═╗╗ ╦╔═══╗╔═╗╔═╗" +:+
  String newline "║ ∈║╚═╗║╣ ║ ║║ ║╚═╗ ║╣ ╠═╝╚═╗" +:+
  String newline "╚══╩═╩╝╚═╝╚═╝╚═╝╩ ╩╚═══╝╚═╝╚══╝" +:+
  String newline "".

Definition banner : M unit := print_colored "GREEN" banner_text.

(** ** String operations of the listing *)

(** [s.replace(old, new)] for a non-empty [old]: the occurrences are taken
    from the left and do not overlap; [skip] counts the characters of an
    occurrence still to be dropped. *)
Fixpoint replace_go (old new : string) (skip : nat) (s : string) : string :=
  match s with
  | "" => ""
  | String c s' =>
      match skip with
      | S k => replace_go old new k s'
      | 0 =>
          if String.prefix old s
          then new +:+ replace_go old new (String.length old - 1) s'
          else String c (replace_go old new 0 s')
      end
  end.

Definition str_replace (old new s : string) : string := replace_go old new 0 s.

(** [s.split(sep)] for a separator of one character. *)
Fixpoint str_split (sep : ascii) (s : string) : list string :=
  match s with
  | "" => [""]
  | String c s' =>
      if Ascii.eqb c sep then "" :: str_split sep s'
      else match str_split sep s' with
           | h :: t => String c h :: t
           | [] => [String c ""]
           end
  end.

(** [l[i]] *)
Definition list_index {A} (l : list A) (i : nat) : M A :=
  match l !! i with
  | Some x => mret x
  | None => raise (Exn "IndexError" "list index out of range")
  end.

(** *** [datetime.strptime(s, "%Y%m%d%H%M%S")]

    The library turns the format into a regular expression, one group per
    directive, matches it at the start of [s] and then demands that nothing
    is left.  A group offers its readings in the order of its alternatives;
    the first reading after which the remaining groups match is taken. *)

Definition digit_value (c : ascii) : option nat :=
  let n := nat_of_ascii c in
  if (48 <=? n) && (n <=? 57) then Some (n - 48) else None.

(** The readings of two digits, then of one digit, that satisfy [two] and
    [one]; each comes with the text after it. *)
Definition readings (two one : nat → bool) (s : string) : list (nat * string) :=
  (match s with
   | String a (String b r) =>
       match digit_value a, digit_value b with
       | Some x, Some y => if two (10 * x + y) then [(10 * x + y, r)] else []
       | _, _ => []
       end
   | _ => []
   end) ++
  (match s with
   | String a r =>
       match digit_value a with
       | Some x => if one x then [(x, r)] else []
       | None => []
       end
   | _ => []
   end).

(** [%m]: [1[0-2]|0[1-9]|[1-9]] *)
Definition group_m : string → list (nat * string) :=
  readings (λ n, (1 <=? n) && (n <=? 12)) (λ n, 1 <=? n).

(** [%d]: [3[0-1]|[1-2]\d|0[1-9]|[1-9]| [1-9]] *)
Definition group_d (s : string) : list (nat * string) :=
  readings (λ n, (1 <=? n) && (n <=? 31)) (λ n, 1 <=? n) s ++
  match s with
  | String " " (String b r) =>
      match digit_value b with
      | Some y => if 1 <=? y then [(y, r)] else []
      | None => []
      end
  | _ => []
  end.

(** [%H]: [2[0-3]|[0-1]\d|\d] *)
Definition group_H : string → list (nat * string) :=
  readings (λ n, n <=? 23) (λ _, true).

(** [%M]: [[0-5]\d|\d] *)
Definition group_M : string → list (nat * string) :=
  readings (λ n, n <=? 59) (λ _, true).

(** [%S]: [6[0-1]|[0-5]\d|\d] *)
Definition group_S : string → list (nat * string) :=
  readings (λ n, n <=? 61) (λ _, true).

(** [%Y]: [\d\d\d\d] *)
Definition group_Y (s : string) : list (nat * string) :=
  match s with
  | String a (String b (String c (String d r))) =>
      match digit_value a, digit_value b, digit_value c, digit_value d with
      | Some x, Some y, Some z, Some u => [(((x * 10 + y) * 10 + z) * 10 + u, r)]
      | _, _, _, _ => []
      end
  | _ => []
  end.

(** The first of the readings [cands] after which [rest] matches. *)
Fixpoint first_reading (rest : string → option (list nat * string))
    (cands : list (nat * string)) : option (list nat * string) :=
  match cands with
  | [] => None
  | (v, r) :: cands' =>
      match rest r with
      | Some (vs, r') => Some (v :: vs, r')
      | None => first_reading rest cands'
      end
  end.

(** The first way to match all [groups] from the start of [s]. *)
Fixpoint match_groups (groups : list (string → list (nat * string))) (s : string)
  : option (list nat * string) :=
  match groups with
  | [] => Some ([], s)
  | g :: gs => first_reading (match_groups gs) (g s)
  end.

Definition time_data_error (s : string) : exn :=
  Exn "ValueError"
      ("time data '" +:+ s +:+ "' does not match format '%Y%m%d%H%M%S'").

Definition strptime_YmdHMS (s : string) : M datetime :=
  match match_groups [group_Y; group_m; group_d; group_H; group_M; group_S] s with
  | Some ([y; m; d; H; Mi; sec], rest) =>
      if negb (String.eqb rest "") then
        raise (Exn "ValueError" ("unconverted data remains: " +:+ rest))
      else if (y =? 0) then
        raise (Exn "ValueError" "year 0 is out of range")
      else if negb (d <=? days_in_month y m) then
        raise (Exn "ValueError" "day is out of range for month")
      else if negb (sec <=? 59) then
        raise (Exn "ValueError" "second must be in 0..59")
      else mret (DateTime y m d H Mi sec 0)
  | _ => raise (time_data_error s)
  end.

(** ** The file system under [scans] *)

(** [os.path.join("scans", filename)] *)
Definition scans_path (filename : string) : string := "scans/" +:+ filename.

Definition os_path_exists_scans : M bool :=
  λ w, (w, Return (bool_decide (is_Some (scans_dir w)))).

(** [os.makedirs("scans")] *)
Definition os_makedirs_scans (b : disk_behaviour) : M unit := λ w,
  match scans_dir w with
  | Some _ => (w, Raise (Exn "FileExistsError" "[Errno 17] File exists: 'scans'"))
  | None =>
      match makedirs_error b with
      | Some msg => (w, Raise (Exn "OSError" msg))
      | None => (with_scans (Some ∅) w, Return ())
      end
  end.

(** [os.listdir("scans")], in the order the system happens to give. *)
Definition os_listdir_scans : M (list string) := λ w,
  match scans_dir w with
  | Some fs => (w, Return (map_to_list fs).*1)
  | None =>
      (w, Raise (Exn "FileNotFoundError" "[Errno 2] No such file or directory: 'scans'"))
  end.

(** [open(filepath, "w")]: the file exists and is empty once this returns. *)
Definition open_w (b : disk_behaviour) (filename : string) : M unit := λ w,
  match scans_dir w with
  | None =>
      (w, Raise (Exn "FileNotFoundError"
                   ("[Errno 2] No such file or directory: '" +:+ scans_path filename +:+ "'")))
  | Some fs =>
      match open_error b with
      | Some msg => (w, Raise (Exn "OSError" msg))
      | None => (with_scans (Some (<[filename := ""]> fs)) w, Return ())
      end
  end.

(** Writing [text] to the open file and closing it. *)
Definition write_text (b : disk_behaviour) (filename text : string) : M unit := λ w,
  match write_error b with
  | Some (n, msg) =>
      (with_scans (Some (<[filename := String.substring 0 n text]> (files w))) w,
       Raise (Exn "OSError" msg))
  | None => (with_scans (Some (<[filename := text]> (files w))) w, Return ())
  end.

(** [json.dump(scan_data, f, indent=4)] *)
Definition json_dump (b : disk_behaviour) (scan_data : ScanRecord) (filename : string)
  : M unit :=
  write_text b filename (Json.dumps (json_of_scan scan_data)).

(** [open(filepath, "r")] and [f.read()] *)
Definition read_text (filename : string) : M string := λ w,
  match files w !! filename with
  | Some text => (w, Return text)
  | None =>
      (w, Raise (Exn "FileNotFoundError"
                   ("[Errno 2] No such file or directory: '" +:+ scans_path filename +:+ "'")))
  end.

(** The behaviour of the disk for the call of [save_scan] that starts. *)
Definition next_disk : M disk_behaviour :=
  λ w, (tick_disk w, Return (disk w (disk_uses w))).

(** ** The functions of the script *)

(** The name [save_scan] gives the file of a report saved at [t]. *)
Definition scan_filename (t : datetime) : string :=
  "scan_" +:+ strftime_stamp t +:+ ".json".

(** [save_scan(scan_data)], lines 116-132. *)
Definition save_scan (scan_data : ScanRecord) : M unit :=
  now ← datetime_now;
  let filename := scan_filename now in
  let filepath := scans_path filename in
  b ← next_disk;
  try_except
    (dir_exists ← os_path_exists_scans;
     (if negb dir_exists then os_makedirs_scans b else mret ());;
     open_w b filename;;
     json_dump b scan_data filename;;
     print_colored "GREEN" ("[+] Scan saved to " +:+ filepath);;
     play_sound "scan_complete.wav")
    (λ e, print_colored "RED" ("[!] Failed to save scan: " +:+ exn_msg e)).

Definition sql_injection : Finding :=
  MkFinding "SQL Injection" "High"
            "Implement prepared statements to prevent SQL injection.".

(** The body of the loop at lines 92-106. *)
Definition report_finding (i : nat) (findings : ScanRecord) : M ScanRecord :=
  let finding_type := "SQL Injection" in
  let severity := "High" in
  let recommendation := "Implement prepared statements to prevent SQL injection." in
  let findings := append_finding findings (MkFinding finding_type severity recommendation) in
  print_colored "RED" ("  [Finding " +:+ pretty (i + 1) +:+ "]");;
  print_colored "RED" ("      Type: " +:+ finding_type);;
  print_colored "RED" ("      Severity: " +:+ severity);;
  print_colored "RED" ("      Recommendation: " +:+ recommendation +:+ String newline "");;
  mret findings.

(** Lines 77-84 of [scan_website]: the simulated scanning steps. *)
Definition scan_website_steps : M unit :=
  print_colored "BLUE" "[*] Checking for open directories...";;
  time_sleep 1;;
  print_colored "BLUE" "[*] Running vulnerability scans...";;
  time_sleep 2;;
  print_colored "YELLOW" "[*] Analyzing SSL/TLS configuration...";;
  time_sleep 1.

(** Lines 86-114 of [scan_website]: the findings are generated, printed and
    saved, and the record is returned. *)
Definition scan_website_findings (findings : ScanRecord) : M ScanRecord :=
  num_findings ← random_randint 1 5;
  findings ←
    (if 0 <? num_findings then
       print_colored "RED" "[!] Potential vulnerabilities found!";;
       for_each (seq 0 num_findings) report_finding findings
     else
       print_colored "GREEN" ("[+] No vulnerabilities detected." +:+ String newline "");;
       mret findings);
  print_colored "GREEN" ("[+] Scan completed successfully!" +:+ String newline "");;
  save_scan findings;;
  mret findings.

(** [scan_website(url)], lines 65-114 ([verbose] is not used). *)
Definition scan_website (url : string) : M ScanRecord :=
  banner;;
  print_colored "YELLOW" (String newline "[+] Starting scan for " +:+ url +:+ "...");;
  now ← datetime_now;
  let findings := MkScan url (strftime_display now) [] in
  scan_website_steps;;
  scan_website_findings findings.

(** [sorted(names, reverse=True)] *)
Definition str_ge : relation string := λ a b, String.le b a.

Global Instance str_ge_dec : RelDecision str_ge.
Proof. intros a b. unfold str_ge. apply _. Defined.

Definition sorted_reverse (names : list string) : list string :=
  merge_sort str_ge names.

(** The date read from a file name, line 147 and the [strptime] of line 148. *)
Definition scan_file_date (scan_file : string) : M datetime :=
  timestamp ← list_index (str_split "_" (str_replace ".json" "" scan_file)) 1;
  strptime_YmdHMS timestamp.

(** The body of the loop at lines 146-149. *)
Definition list_scan (entry : nat * string) (_ : unit) : M unit :=
  let '(i, scan_file) := entry in
  t ← scan_file_date scan_file;
  let date_str := strftime_display t in
  print (pretty (i + 1) +:+ ") Scan ID: " +:+ scan_file +:+ ", Date: " +:+ date_str).

(** [enumerate(l)] *)
Definition enumerate {A} (l : list A) : list (nat * A) := zip (seq 0 (length l)) l.

(** Line 144: the names [view_history] goes through. *)
Definition history_scans (names : list string) : list string :=
  sorted_reverse names.

(** Lines 136-149 of [view_history]: [None] when it returns at line 142,
    else the sorted names. *)
Definition view_history_listing : M (option (list string)) :=
  banner;;
  print (String newline "===== Scan History =====" +:+ String newline "");;
  dir_exists ← os_path_exists_scans;
  names ← (if dir_exists then os_listdir_scans else mret []);
  if negb dir_exists || bool_decide (names = []) then
    print_colored "YELLOW" "No previous scans found.";;
    mret None
  else
    names ← os_listdir_scans;
    let scans := history_scans names in
    for_each (enumerate (take 10 scans)) list_scan ();;
    mret (Some scans).

(** [view_history()].  Lines 151-162 prompt for a selection and call
    [display_scan_details], whose body the source at hand cuts short; they
    are the parameter [select_scan]. *)
Definition view_history (select_scan : list string → M unit) : M unit :=
  r ← view_history_listing;
  match r with
  | None => mret ()
  | Some scans => select_scan scans
  end.

(** Lines 166-171 of [display_scan_details]: the file is opened and loaded. *)
Definition display_scan_details_load (filename : string) : M json :=
  text ← read_text filename;
  of_outcome (Json.loads text).

(** ** The prompts: show_menu and the selection of view_history *)

(** [c.isspace()] for a character below 256: what [str.strip] removes. *)
Definition py_isspace (c : ascii) : bool :=
  let n := nat_of_ascii c in
  ((9 <=? n) && (n <=? 13)) || ((28 <=? n) && (n <=? 32)) ||
  (n =? 133) || (n =? 160).

Fixpoint str_lstrip (s : string) : string :=
  match s with
  | "" => ""
  | String c s' => if py_isspace c then str_lstrip s' else s
  end.

Fixpoint str_rstrip (s : string) : string :=
  match s with
  | "" => ""
  | String c s' =>
      let r := str_rstrip s' in
      if py_isspace c && String.eqb r "" then "" else String c r
  end.

(** [s.strip()] *)
Definition str_strip (s : string) : string := str_rstrip (str_lstrip s).

(** [repr(s)] for a string of characters below 256. *)
Definition py_isprintable (c : ascii) : bool :=
  let n := nat_of_ascii c in
  ((32 <=? n) && (n <=? 126)) || ((161 <=? n) && negb (n =? 173)).

Definition repr_char (quote c : ascii) : string :=
  let n := nat_of_ascii c in
  if Ascii.eqb c "\" then "\\"
  else if Ascii.eqb c quote then String "\" (String quote "")
  else if Ascii.eqb c "009" then "\t"
  else if Ascii.eqb c "010" then "\n"
  else if Ascii.eqb c "013" then "\r"
  else if py_isprintable c then String c ""
  else "\x" +:+ String (Json.hex_digit (n / 16)) (String (Json.hex_digit (n mod 16)) "").

Fixpoint str_contains (c : ascii) (s : string) : bool :=
  match s with
  | "" => false
  | String x s' => Ascii.eqb x c || str_contains c s'
  end.

Fixpoint repr_body (quote : ascii) (s : string) : string :=
  match s with
  | "" => ""
  | String c s' => repr_char quote c +:+ repr_body quote s'
  end.

Definition py_repr (s : string) : string :=
  let quote := if str_contains "'" s && negb (str_contains dquote s)
               then dquote else "'"%char in
  String quote (repr_body quote s +:+ String quote "").

(** [int(s)] for a string of characters below 256.  White space (the ASCII
    one, and the two characters above 127 that [isspace] accepts) is dropped
    at both ends; then come an optional sign and decimal digits, where single
    underscores may separate digits. *)
Definition int_isspace (c : ascii) : bool :=
  let n := nat_of_ascii c in
  ((9 <=? n) && (n <=? 13)) || (n =? 32) || (n =? 133) || (n =? 160).

Fixpoint int_lskip (s : string) : string :=
  match s with
  | "" => ""
  | String c s' => if int_isspace c then int_lskip s' else s
  end.

(** The digits from the start of [s], with the value [acc] of those read
    before; [after_digit] tells that the character before was a digit.  The
    text ends with white space only. *)
Fixpoint int_digits (acc : Z) (after_digit : bool) (s : string) : option Z :=
  match s with
  | "" => if after_digit then Some acc else None
  | String c s' =>
      match digit_value c with
      | Some d => int_digits (10 * acc + Z.of_nat d) true s'
      | None =>
          if Ascii.eqb c "_" then
            if after_digit then
              match s' with
              | String c' _ =>
                  match digit_value c' with
                  | Some _ => int_digits acc false s'
                  | None => None
                  end
              | "" => None
              end
            else None
          else if after_digit && String.eqb (int_lskip s) "" then Some acc
          else None
      end
  end.

(** [s] past the white space and the sign that may start a number. *)
Definition int_unsigned (s : string) : string :=
  match int_lskip s with
  | String "-" r => r
  | String "+" r => r
  | r => r
  end.

Definition int_literal (s : string) : option Z :=
  match int_lskip s with
  | String "-" r => Z.opp <$> int_digits 0 false r
  | String "+" r => int_digits 0 false r
  | r => int_digits 0 false r
  end.

(** The digits and underscores at the start of [s], and the number of digits
    among them. *)
Definition is_decimal (c : ascii) : bool :=
  match digit_value c with
  | Some _ => true
  | None => false
  end.

Fixpoint digit_run (s : string) : string :=
  match s with
  | "" => ""
  | String c s' =>
      if is_decimal c || Ascii.eqb c "_" then String c (digit_run s') else ""
  end.

Fixpoint count_digits (s : string) : nat :=
  match s with
  | "" => 0
  | String c s' => (if is_decimal c then 1 else 0) + count_digits s'
  end.

(** [sys.get_int_max_str_digits()], as the interpreter starts. *)
Definition int_max_str_digits : nat := 4300.

(** The value of [int(s)], or the message of its [ValueError].  A well formed
    run of more than 4300 digits is refused before what follows it is
    looked at; the other message shows 200 characters of [repr(s)] at most. *)
Definition int_result (s : string) : Z + string :=
  let run := digit_run (int_unsigned s) in
  if bool_decide (is_Some (int_digits 0 false run)) &&
     (int_max_str_digits <? count_digits run)
  then inr ("Exceeds the limit (4300 digits) for integer string conversion: value has "
            +:+ pretty (count_digits run) +:+
            " digits; use sys.set_int_max_str_digits() to increase the limit")
  else
    match int_literal s with
    | Some z => inl z
    | None =>
        inr ("invalid literal for int() with base 10: " +:+
             String.substring 0 200 (py_repr s))
    end.

Definition py_int (s : string) : M Z :=
  match int_result s with
  | inl z => mret z
  | inr msg => raise (Exn "ValueError" msg)
  end.

(** The classes of the model that derive from [ValueError]. *)
Definition is_ValueError (e : exn) : bool :=
  bool_decide (exn_class e ∈ ["ValueError"; "JSONDecodeError"; "UnicodeError";
                              "UnicodeDecodeError"; "UnicodeEncodeError"]).

(** [try: body  except ValueError: handler] *)
Definition try_except_ValueError {A} (body handler : M A) : M A := λ w,
  match body w with
  | (w', Return a) => (w', Return a)
  | (w', Raise e) => if is_ValueError e then handler w' else (w', Raise e)
  end.

(** [choice[1:]] *)
Definition str_tail (s : string) : string :=
  match s with
  | "" => ""
  | String _ s' => s'
  end.

Section prompts.

(** [input(prompt)] is the terminal's: what it returns, and whether it
    raises, is left open.  So is [display_scan_details], whose body the
    source at hand shows up to line 186 only. *)
Variable input : string → M string.
Variable display_scan_details : string → M unit.

(** [show_menu()], lines 53-63. *)
Definition show_menu : M string :=
  print (String newline "===== Scannerv2 Menu =====");;
  print (String newline "1. Start New Scan");;
  print "2. View Scan History";;
  print "3. Export Results";;
  print "4. Settings";;
  print ("5. Quit" +:+ String newline "");;
  choice ← input "Select an option [1-5]: ";
  mret choice.

(** Lines 151-162 of [view_history]. *)
Definition view_history_select (scans : list string) : M unit :=
  print (String newline
           "Enter s<scan_num> to view a specific scan, or press Enter to go back.");;
  line ← input "Selection: ";
  let choice := str_strip line in
  if String.prefix "s" choice && (1 <? String.length choice) then
    try_except_ValueError
      (n ← py_int (str_tail choice);
       let scan_index := (n - 1)%Z in
       if (0 <=? scan_index)%Z && (scan_index <? Z.of_nat (length scans))%Z then
         scan ← list_index scans (Z.to_nat scan_index);
         display_scan_details scan
       else
         print_colored "RED" "Invalid scan index selected.")
      (print_colored "RED" "Invalid selection format.")
  else mret ().

(** [view_history()], lines 134-162. *)
Definition view_history_prompting : M unit := view_history view_history_select.

End prompts.

(** ** Small worlds to run the script in *)

Definition noon : datetime := DateTime 2024 3 15 12 0 0 0.

(** A world without a [scans] directory, a frozen clock and a sound disk. *)
Definition quiet_world : World :=
  MkWorld None [] (λ _, noon) 0 (λ _, 0) 0 (λ _, healthy) 0 false None.

(** A world whose disk is full: every write stops after ten characters. *)
Definition full_disk_world : World :=
  MkWorld None [] (λ _, noon) 0 (λ _, 3) 0
          (λ _, Disk None None (Some (10, "[Errno 28] No space left on device")))
          0 false None.

(** * Summaries used by the proofs

    None of the definitions below belongs to the script: each one names a
    quantity that the statements or the proofs talk about, and each is
    related to the functions above by a lemma. *)

Module JsonAux.
Import Json.

(** The proper values: the keys of every dict are pairwise distinct. *)
Inductive json_wf : json → Prop :=
  | wf_str s : json_wf (JStr s)
  | wf_list l : Forall json_wf l → json_wf (JList l)
  | wf_dict items :
      NoDup items.*1 → Forall (λ kv, json_wf kv.2) items → json_wf (JDict items).

(** The tail of an encoded list, and of an encoded dict, after the first
    element. *)
Fixpoint encode_more_list (level : nat) (l : list json) : string :=
  match l with
  | [] => newline_indent level +:+ "]"
  | y :: l' =>
      "," +:+ newline_indent (S level) +:+ encode (S level) y +:+
      encode_more_list level l'
  end.

Fixpoint encode_more_dict (level : nat) (l : list (string * json)) : string :=
  match l with
  | [] => newline_indent level +:+ "}"
  | (k, y) :: l' =>
      "," +:+ newline_indent (S level) +:+ encode_str k +:+ ": " +:+
      encode (S level) y +:+ encode_more_dict level l'
  end.

(** An encoded value starts with a quote, a bracket or a brace. *)
Definition opens_value (s : string) : Prop :=
  ∃ c r, s = String c r ∧ (c = dquote ∨ c = "["%char ∨ c = "{"%char).

(** [v] is read back from its encoding, whatever follows it, as soon as
    the fuel covers the length of the encoding. *)
Definition decodes (v : json) : Prop :=
  ∀ level fuel rest,
    String.length (encode level v) ≤ fuel →
    scan_once fuel (encode level v +:+ rest) = Some (v, rest).

End JsonAux.

(** ** What save_scan does, in closed form *)

(** The error the [try] block of [save_scan] meets in [w], if any. *)
Definition save_failure (w : World) : option string :=
  let b := disk w (disk_uses w) in
  match scans_dir w, makedirs_error b with
  | None, Some msg => Some msg
  | _, _ =>
      match open_error b, write_error b with
      | Some msg, _ => Some msg
      | None, Some (_, msg) => Some msg
      | None, None => None
      end
  end.

(** [ColorPrinter.colorize(ColorPrinter.<name>, text)] for a defined colour. *)
Definition colored (name text : string) : string :=
  default "" (class_attr ColorPrinter name) +:+ text +:+ String ESC "[0m".

(** The lines [save_scan] prints. *)
Definition failure_line (msg : string) : string :=
  colored "RED" ("[!] Failed to save scan: " +:+ msg).

Definition saved_line (t : datetime) : string :=
  colored "GREEN" ("[+] Scan saved to " +:+ scans_path (scan_filename t)).

(** What [play_sound] adds to the console. *)
Definition sound_events (w : World) : list event :=
  if HAS_PYGAME w then
    match mixer_error w with
    | Some msg => [Print ("Warning: Could not play sound (" +:+ msg +:+ ")")]
    | None => [PlayMusic "scan_complete.wav"]
    end
  else [].

(** What [save_scan] adds to the console. *)
Definition save_events (w : World) : list event :=
  match save_failure w with
  | Some msg => [Print (failure_line msg)]
  | None => Print (saved_line (clock w (clock_reads w))) :: sound_events w
  end.

(** The directory [scans] after [save_scan scan_data] has run in [w]. *)
Definition save_dir (scan_data : ScanRecord) (w : World) : option (gmap string string) :=
  let b := disk w (disk_uses w) in
  let filename := scan_filename (clock w (clock_reads w)) in
  let text := Json.dumps (json_of_scan scan_data) in
  match scans_dir w, makedirs_error b with
  | None, Some _ => None
  | _, _ =>
      match open_error b, write_error b with
      | Some _, _ => Some (files w)
      | None, Some (n, _) => Some (<[filename := String.substring 0 n text]> (files w))
      | None, None => Some (<[filename := text]> (files w))
      end
  end.

(** The world [save_scan scan_data] leaves. *)
Definition save_world (scan_data : ScanRecord) (w : World) : World :=
  MkWorld (save_dir scan_data w) (console w ++ save_events w) (clock w)
          (S (clock_reads w)) (entropy w) (entropy_reads w) (disk w)
          (S (disk_uses w)) (HAS_PYGAME w) (mixer_error w).

(** ** What scan_website prints and returns, in closed form *)

(** The four lines printed for the finding of index [i]. *)
Definition finding_events (i : nat) : list event :=
  [ Print (colored "RED" ("  [Finding " +:+ pretty (i + 1) +:+ "]"));
    Print (colored "RED" "      Type: SQL Injection");
    Print (colored "RED" "      Severity: High");
    Print (colored "RED"
             ("      Recommendation: " +:+ f_recommendation sql_injection +:+
              String newline "")) ].

(** [w] after the events [evs]. *)
Definition emit_all (evs : list event) (w : World) : World :=
  foldl (λ w e, emit e w) w evs.

(** The record [r] after [n] passes of the loop at lines 92-106. *)
Definition add_findings (r : ScanRecord) (n : nat) : ScanRecord :=
  MkScan (url r) (scan_time r) (findings r ++ replicate n sql_injection).

(** The lines of the two branches at lines 90-108, and line 110. *)
Definition found_line : string := colored "RED" "[!] Potential vulnerabilities found!".
Definition no_vulnerabilities_line : string :=
  colored "GREEN" ("[+] No vulnerabilities detected." +:+ String newline "").
Definition completed_line : string :=
  colored "GREEN" ("[+] Scan completed successfully!" +:+ String newline "").

(** The number [random.randint(1, 5)] returns in [w]. *)
Definition drawn (w : World) : nat := 1 + entropy w (entropy_reads w) mod 5.

(** What lines 90-110 print for [n] findings. *)
Definition findings_events (n : nat) : list event :=
  Print found_line :: mbind finding_events (seq 0 n) ++ [Print completed_line].

(** The two lines [scan_website] prints first. *)
Definition banner_line : string := colored "GREEN" banner_text.
Definition start_line (url : string) : string :=
  colored "YELLOW" (String newline "[+] Starting scan for " +:+ url +:+ "...").

(** What reading [ColorPrinter.BLUE] raises. *)
Definition blue_error : exn :=
  Exn "AttributeError" "type object 'ColorPrinter' has no attribute 'BLUE'".

(** The events that [m] adds to the console of [w]. *)
Definition new_events {A} (m : M A) (w : World) : list event :=
  drop (length (console w)) (console (m w).1).

(** ** Several saves in a row *)

(** The value of [datetime.now()] at the call that comes after [i] others. *)
Definition now_at (w : World) (i : nat) : datetime := clock w (i + clock_reads w).

(** The disk is sound for the next [n] calls of [save_scan]. *)
Definition disk_sound (w : World) (n : nat) : Prop :=
  ∀ i, i < n → disk w (i + disk_uses w) = healthy.

(** The next [n] values of the clock are valid and lie in increasing seconds. *)
Definition clock_advances (w : World) (n : nat) : Prop :=
  (∀ i, i < n → valid_datetime (now_at w i)) ∧
  (∀ i j, i < j < n → second_compare (now_at w i) (now_at w j) = Lt).

(** The names of the next [n] reports, oldest first. *)
Definition next_names (w : World) (n : nat) : list string :=
  (λ i, scan_filename (now_at w i)) <$> seq 0 n.

(** Saving the reports [ds] one after the other. *)
Definition save_all (ds : list ScanRecord) : M unit :=
  for_each ds (λ d _, save_scan d) ().

(** ** More small worlds, and two reports *)

(** A world whose clock gives two instants of one second, a microsecond
    apart. *)
Definition burst_world : World :=
  MkWorld None [] (λ i, DateTime 2024 3 15 12 0 0 i) 0 (λ _, 0) 0
          (λ _, healthy) 0 false None.

(** A world whose clock advances by one second at each reading. *)
Definition ticking_world : World :=
  MkWorld None [] (λ i, DateTime 2024 3 15 12 0 i 0) 0 (λ _, 0) 0
          (λ _, healthy) 0 false None.

Definition report_a : ScanRecord :=
  MkScan "http://a.example" "2024-03-15 12:00:00" [sql_injection].
Definition report_b : ScanRecord :=
  MkScan "http://b.example" "2024-03-15 12:00:00" [sql_injection; sql_injection].

(** ** The listing *)

(** Every file of [scans] has a name that [save_scan] gives. *)
Definition only_saved_scans (w : World) : Prop :=
  ∀ name, is_Some (files w !! name) → ∃ t, name = scan_filename t.

(** The line under the banner of [view_history]. *)
Definition history_header : string :=
  String newline "===== Scan History =====" +:+ String newline "".

(** [t.strftime("%Y%m%d")]: the part of the stamp before its underscore. *)
Definition strftime_date (t : datetime) : string :=
  pad4 (year t) +:+ pad2 (month t) +:+ pad2 (day t).

(** [t.strftime("%H%M%S")] *)
Definition strftime_time (t : datetime) : string :=
  pad2 (hour t) +:+ pad2 (minute t) +:+ pad2 (second t).

(** No character of [s] is [c]. *)
Fixpoint avoids (c : ascii) (s : string) : Prop :=
  match s with
  | "" => True
  | String x s' => x ≠ c ∧ avoids c s'
  end.

(** Every reading of the group [g] takes at least [k] characters. *)
Definition consumes (k : nat) (g : string → list (nat * string)) : Prop :=
  ∀ s v r, (v, r) ∈ g s → k + String.length r ≤ String.length s.

(** The outcome is an exception. *)
Definition is_raise {A} (o : outcome A) : Prop := ∃ e, o = Raise e.

(** ** Summaries for the history, the prompts and the text of a report *)

(** A character is printable ASCII or the newline. *)
Definition is_plain (c : ascii) : bool :=
  let n := nat_of_ascii c in
  (n =? 10) || ((32 <=? n) && (n <=? 126)).

(** All the characters of [s] are. *)
Fixpoint plain_text (s : string) : bool :=
  match s with
  | "" => true
  | String c s' => is_plain c && plain_text s'
  end.

(** [t.strftime("%Y%m%d%H%M%S")]: the text the format of line 148 reads. *)
Definition strftime_compact (t : datetime) : string :=
  pad4 (year t) +:+ pad2 (month t) +:+ pad2 (day t) +:+
  pad2 (hour t) +:+ pad2 (minute t) +:+ pad2 (second t).

(** [t] without its microseconds, as [strptime] returns it. *)
Definition whole_second (t : datetime) : datetime :=
  DateTime (year t) (month t) (day t) (hour t) (minute t) (second t) 0.

(** The lines of [view_history] outside the loop. *)
Definition no_scans_line : string := colored "YELLOW" "No previous scans found.".
Definition select_prompt : string :=
  String newline "Enter s<scan_num> to view a specific scan, or press Enter to go back.".
Definition invalid_index_line : string := colored "RED" "Invalid scan index selected.".
Definition invalid_format_line : string := colored "RED" "Invalid selection format.".

(** The line of the loop at line 149 for the name [scan_file] at index [i],
    whose date is [t]. *)
Definition summary_line (i : nat) (scan_file : string) (t : datetime) : string :=
  pretty (i + 1) +:+ ") Scan ID: " +:+ scan_file +:+ ", Date: " +:+ strftime_display t.

(** The warning of [play_sound]. *)
Definition sound_warning (msg : string) : string :=
  "Warning: Could not play sound (" +:+ msg +:+ ")".

(** More small worlds: one whose mixer fails, one whose disk refuses to open
    files, and two whose [scans] directory holds a file that [save_scan] did
    not name. *)
Definition mute_world : World :=
  MkWorld None [] (λ _, noon) 0 (λ _, 0) 0 (λ _, healthy) 0 true
          (Some "No available audio device").

Definition locked_world : World :=
  MkWorld None [] (λ _, noon) 0 (λ _, 0) 0
          (λ _, Disk None (Some "[Errno 13] Permission denied") None) 0 false None.

Definition notes_world : World :=
  MkWorld (Some {["notes.txt" := "remember"]}) [] (λ _, noon) 0 (λ _, 0) 0
          (λ _, healthy) 0 false None.

Definition dated_world : World :=
  MkWorld (Some {["scan_20240315120000.json" := "{}"]}) [] (λ _, noon) 0 (λ _, 0) 0
          (λ _, healthy) 0 false None.

(** A terminal that answers every prompt with [line], and a stand-in for
    [display_scan_details] that prints the name it is given. *)
Definition answering (line : string) : string → M string := λ _ w, (w, Return line).
Definition show_name : string → M unit := print.

(** A stand-in for [display_scan_details] that raises [e]. *)
Definition failing (e : exn) : string → M unit := λ _, raise e.


(** [s] is made of decimal digits. *)
Fixpoint decimal_only (s : string) : bool :=
  match s with
  | "" => true
  | String c s' => is_decimal c && decimal_only s'
  end.

(** [c * n] *)
Fixpoint str_repeat (c : ascii) (n : nat) : string :=
  match n with
  | 0 => ""
  | S n' => String c (str_repeat c n')
  end.

(** Eleven names in descending order. *)
Definition eleven_names : list string :=
  ["k.json"; "j.json"; "i.json"; "h.json"; "g.json"; "f.json"; "e.json"; "d.json";
   "c.json"; "b.json"; "a.json"].








(** * Proofs *)

(** ** The model computes *)

Example dumps_small :
  let nl := String newline "" in
  let q := String dquote "" in
  Json.dumps (JDict [("a", JList [JStr "x"; JStr "y"]); ("b", JList [])]) =
  String.concat ""
    [ "{"; nl;
      "    "; q; "a"; q; ": ["; nl;
      "        "; q; "x"; q; ","; nl;
      "        "; q; "y"; q; nl;
      "    ],"; nl;
      "    "; q; "b"; q; ": []"; nl;
      "}" ].
Proof. reflexivity. Qed.

Example loads_small :
  Json.loads (Json.dumps (JDict [("a", JList [JStr "x"; JStr "y"]); ("b", JList [])])) =
  Return (JDict [("a", JList [JStr "x"; JStr "y"]); ("b", JList [])]).
Proof. reflexivity. Qed.

Example strptime_full :
  ∀ w, strptime_YmdHMS "20240315101112" w = (w, Return (DateTime 2024 3 15 10 11 12 0)).
Proof. reflexivity. Qed.

Example strptime_date_only :
  ∀ w, strptime_YmdHMS "20240315" w = (w, Raise (time_data_error "20240315")).
Proof. reflexivity. Qed.

Example split_name :
  str_split "_" (str_replace ".json" "" "scan_20240315_101112.json") =
  ["scan"; "20240315"; "101112"].
Proof. reflexivity. Qed.

Example save_scan_quiet :
  let w := (save_scan (MkScan "http://a" "2024-03-15 12:00:00" [sql_injection]) quiet_world).1 in
  (map_to_list (files w)).*1 = ["scan_20240315_120000.json"] ∧
  printed w = [String ESC "[92m[+] Scan saved to scans/scan_20240315_120000.json" +:+ String ESC "[0m"].
Proof. vm_compute. done. Qed.

(** ** Strings *)

Lemma append_assoc (a b c : string) : (a +:+ b) +:+ c = a +:+ b +:+ c.
Proof. induction a as [|x a IH]; [done|]. exact (f_equal (String x) IH). Qed.

Lemma append_cons c (a b : string) : String c a +:+ b = String c (a +:+ b).
Proof. reflexivity. Qed.

Lemma append_nil_r (a : string) : a +:+ "" = a.
Proof. induction a as [|x a IH]; [done|]. exact (f_equal (String x) IH). Qed.

Lemma length_append (a b : string) :
  String.length (a +:+ b) = String.length a + String.length b.
Proof. induction a as [|x a IH]; [done|]. exact (f_equal S IH). Qed.

(** ** JSON: what [dumps] writes, [loads] reads back *)

Module JsonFacts.
Import Json JsonAux.

Lemma scanstring_escape_char c x :
  scanstring (escape_char c +:+ x) = cons_char c (scanstring x).
Proof. (destruct c as [[] [] [] [] [] [] [] []]; reflexivity). Qed.

Lemma scanstring_escape s rest :
  scanstring (escape s +:+ String dquote rest) = Some (s, rest).
Proof.
  induction s as [|c s IH]; [done|].
  cbn [escape]. rewrite append_assoc, scanstring_escape_char, IH. done.
Qed.

Lemma json_nested_ind (P : json → Prop) :
  (∀ s, P (JStr s)) →
  (∀ l, Forall P l → P (JList l)) →
  (∀ items, Forall (λ kv, P kv.2) items → P (JDict items)) →
  ∀ v, P v.
Proof.
  intros Hstr Hlist Hdict. fix IH 1. intros [s|l|items].
  - apply Hstr.
  - apply Hlist. induction l as [|x l IHl]; constructor; [apply IH|apply IHl].
  - apply Hdict. induction items as [|[k x] l IHl]; constructor; [apply IH|apply IHl].
Qed.

Lemma encode_list_cons level x xs :
  encode level (JList (x :: xs)) =
  "[" +:+ newline_indent (S level) +:+ encode (S level) x +:+
  encode_more_list level xs.
Proof.
  cbn [encode]. do 3 f_equal.
  induction xs as [|y ys IH]; [done|]. cbn [encode_more_list]. by rewrite <- IH.
Qed.

Lemma encode_dict_cons level k x xs :
  encode level (JDict ((k, x) :: xs)) =
  "{" +:+ newline_indent (S level) +:+ encode_str k +:+ ": " +:+
  encode (S level) x +:+ encode_more_dict level xs.
Proof.
  cbn [encode]. do 5 f_equal.
  induction xs as [|[k' y] ys IH]; [done|]. cbn [encode_more_dict]. by rewrite <- IH.
Qed.

Lemma skip_ws_spaces n s : skip_ws (spaces n +:+ s) = skip_ws s.
Proof. induction n as [|n IH]; [done|]. exact IH. Qed.

Lemma skip_ws_newline_indent level s :
  skip_ws (newline_indent level +:+ s) = skip_ws s.
Proof. apply (skip_ws_spaces (4 * level)). Qed.

Lemma encode_opens level v : opens_value (encode level v).
Proof.
  destruct v as [s|[|x xs]|[|[k x] xs]]; eexists _, _; (split; [reflexivity|]); auto.
Qed.

Lemma skip_ws_opens s rest : opens_value s → skip_ws (s +:+ rest) = s +:+ rest.
Proof. by intros (c & r & -> & [-> | [-> | ->]]). Qed.

Lemma length_encode_more_list level l : 1 ≤ String.length (encode_more_list level l).
Proof. destruct l; cbn [encode_more_list]; rewrite !length_append; cbn; lia. Qed.

Lemma length_encode_more_dict level l : 1 ≤ String.length (encode_more_dict level l).
Proof.
  destruct l as [|[??]?]; cbn [encode_more_dict]; rewrite !length_append; cbn; lia.
Qed.


Lemma dict_set_fresh k v d : k ∉ d.*1 → dict_set k v d = d ++ [(k, v)].
Proof.
  induction d as [|[k' v'] d IH]; [done|]. cbn. intros Hk.
  apply not_elem_of_cons in Hk as [? ?]. case_decide; [done|]. by rewrite IH.
Qed.

Lemma dict_of_pairs_nodup ps : NoDup ps.*1 → dict_of_pairs ps = ps.
Proof.
  unfold dict_of_pairs. intros Hnd.
  enough (∀ acc, NoDup (acc ++ ps).*1 →
            fold_left (λ d kv, dict_set kv.1 kv.2 d) ps acc = acc ++ ps) as H
    by exact (H [] Hnd).
  clear Hnd. induction ps as [|[k v] ps IH]; intros acc Hnd; cbn.
  - by rewrite app_nil_r.
  - rewrite dict_set_fresh.
    + rewrite IH; rewrite <- app_assoc; [done|exact Hnd].
    + rewrite fmap_app in Hnd. apply NoDup_app in Hnd as (_ & Hnd & _).
      intros Hin. apply (Hnd k Hin). cbn. left.
Qed.

Lemma scan_once_S fuel c rest :
  scan_once (S fuel) (String c rest) =
  if Ascii.eqb c dquote then
    '(str, r) ← scanstring rest; Some (JStr str, r)
  else if Ascii.eqb c "[" then
    match skip_ws rest with
    | String "]" r => Some (JList [], r)
    | s1 => '(vs, r) ← array_items fuel s1; Some (JList vs, r)
    end
  else if Ascii.eqb c "{" then
    match skip_ws rest with
    | String "}" r => Some (JDict [], r)
    | s1 => '(ps, r) ← object_items fuel s1; Some (JDict (dict_of_pairs ps), r)
    end
  else None.
Proof. reflexivity. Qed.

Lemma array_items_S fuel s :
  array_items (S fuel) s =
  '(v, r) ← scan_once fuel s;
  match skip_ws r with
  | String "]" r' => Some ([v], r')
  | String "," r' =>
      '(vs, r'') ← array_items fuel (skip_ws r'); Some (v :: vs, r'')
  | _ => None
  end.
Proof. reflexivity. Qed.

Lemma object_items_S fuel rest :
  object_items (S fuel) (String dquote rest) =
  '(k, r) ← scanstring rest;
  match skip_ws r with
  | String ":" r1 =>
      '(v, r2) ← scan_once fuel (skip_ws r1);
      match skip_ws r2 with
      | String "}" r' => Some ([(k, v)], r')
      | String "," r' =>
          '(ps, r'') ← object_items fuel (skip_ws r'); Some ((k, v) :: ps, r'')
      | _ => None
      end
  | _ => None
  end.
Proof. reflexivity. Qed.

Lemma array_items_encode xs :
  Forall decodes xs → ∀ x, decodes x → ∀ level fuel rest,
    String.length (encode (S level) x +:+ encode_more_list level xs) ≤ fuel →
    array_items fuel (encode (S level) x +:+ encode_more_list level xs +:+ rest)
    = Some (x :: xs, rest).
Proof.
  induction 1 as [|y ys Hy Hys IH]; intros x Hx level fuel rest Hfuel;
    rewrite length_append in Hfuel;
    match type of Hfuel with context [encode_more_list ?l ?xs] =>
      pose proof (length_encode_more_list l xs) as Hmore end;
    (destruct fuel as [|fuel]; [lia|]);
    rewrite array_items_S, Hx by lia;
    cbn [mbind option_bind encode_more_list].
  - rewrite append_assoc, skip_ws_newline_indent. reflexivity.
  - cbn [encode_more_list] in Hfuel. rewrite !length_append in Hfuel.
    rewrite !append_assoc.
    change (skip_ws ("," +:+ ?s)) with (String "," s). cbv beta iota.
    rewrite skip_ws_newline_indent, skip_ws_opens by apply encode_opens.
    rewrite IH; [done..|].
    rewrite length_append. cbn in Hfuel. lia.
Qed.

Lemma scanstring_encode_str k rest :
  ∃ r, encode_str k +:+ rest = String dquote r ∧ scanstring r = Some (k, rest).
Proof.
  exists (escape k +:+ String dquote rest). split.
  - unfold encode_str. by rewrite append_cons, append_assoc.
  - apply scanstring_escape.
Qed.

Lemma object_items_encode xs :
  Forall (λ kv, decodes kv.2) xs → ∀ k x, decodes x → ∀ level fuel rest,
    String.length (encode_str k +:+ ": " +:+ encode (S level) x +:+
                   encode_more_dict level xs) ≤ fuel →
    object_items fuel (encode_str k +:+ ": " +:+ encode (S level) x +:+
                       encode_more_dict level xs +:+ rest)
    = Some ((k, x) :: xs, rest).
Proof.
  induction 1 as [|[k' y] ys Hy Hys IH]; intros k x Hx level fuel rest Hfuel;
    rewrite !length_append in Hfuel;
    match type of Hfuel with context [encode_more_dict ?l ?xs] =>
      pose proof (length_encode_more_dict l xs) as Hmore end;
    (destruct fuel as [|fuel]; [lia|]);
    match goal with |- object_items _ (encode_str ?k +:+ ?r) = _ =>
      destruct (scanstring_encode_str k r) as (r0 & -> & Hr) end;
    rewrite object_items_S, Hr; cbn [mbind option_bind];
    change (skip_ws (": " +:+ ?s)) with (String ":" (String " " s)); cbv beta iota;
    change (skip_ws (String " " ?s)) with (skip_ws s);
    rewrite skip_ws_opens by apply encode_opens;
    rewrite Hx by (cbn in Hfuel; lia);
    cbn [mbind option_bind encode_more_dict].
  - rewrite append_assoc, skip_ws_newline_indent. reflexivity.
  - cbn [encode_more_dict] in Hfuel. rewrite !length_append in Hfuel.
    rewrite !append_assoc.
    change (skip_ws ("," +:+ ?s)) with (String "," s). cbv beta iota.
    rewrite skip_ws_newline_indent, skip_ws_opens
      by (eexists _, _; split; [apply append_cons|by left]).
    rewrite IH; [done..|].
    rewrite !length_append. cbn in Hfuel |- *. lia.
Qed.

Lemma array_dispatch fuel s rest :
  opens_value s →
  match s +:+ rest with
  | String "]" r => Some (JList [], r)
  | s1 => '(vs, r) ← array_items fuel s1; Some (JList vs, r)
  end = '(vs, r) ← array_items fuel (s +:+ rest); Some (JList vs, r).
Proof. by intros (c & r & -> & [-> | [-> | ->]]). Qed.

Lemma object_dispatch fuel s rest :
  match encode_str s +:+ rest with
  | String "}" r => Some (JDict [], r)
  | s1 => '(ps, r) ← object_items fuel s1; Some (JDict (dict_of_pairs ps), r)
  end = '(ps, r) ← object_items fuel (encode_str s +:+ rest);
        Some (JDict (dict_of_pairs ps), r).
Proof. reflexivity. Qed.

(** Every well-formed value is read back from its encoding, whatever
    follows it, as soon as the fuel covers the length of the encoding. *)
Lemma scan_once_encode v : json_wf v → decodes v.
Proof.
  induction v as [s|l IH|items IH] using json_nested_ind; intros Hwf;
    intros level fuel rest Hfuel.
  - destruct fuel as [|fuel]; [cbn in Hfuel; lia|].
    destruct (scanstring_encode_str s rest) as (r & Heq & Hr).
    cbn [encode]. rewrite Heq, scan_once_S, Hr. done.
  - inversion_clear Hwf as [|? Hl|].
    assert (Forall decodes l) as Hdec.
    { clear Hfuel. induction IH as [|x xs Hx _ IHxs]; [constructor|].
      inversion_clear Hl. constructor; auto. }
    destruct Hdec as [|x xs Hx Hxs].
    { destruct fuel as [|fuel]; [cbn in Hfuel; lia|]. done. }
    rewrite encode_list_cons in Hfuel |- *. rewrite !length_append in Hfuel.
    destruct fuel as [|fuel]; [cbn in Hfuel; lia|].
    rewrite !append_assoc, append_cons, scan_once_S. cbv beta iota.
    cbn [Ascii.eqb Bool.eqb dquote]. cbv beta iota.
    change ("" +:+ ?s) with s.
    rewrite skip_ws_newline_indent, skip_ws_opens by apply encode_opens.
    rewrite array_dispatch by apply encode_opens.
    rewrite array_items_encode; [done..|].
    rewrite length_append. cbn in Hfuel. lia.
  - inversion_clear Hwf as [| |? Hnd Hl].
    assert (Forall (λ kv, decodes kv.2) items) as Hdec.
    { clear Hfuel Hnd. induction IH as [|x xs Hx _ IHxs]; [constructor|].
      inversion_clear Hl. constructor; auto. }
    destruct Hdec as [|[k x] xs Hx Hxs].
    { destruct fuel as [|fuel]; [cbn in Hfuel; lia|]. done. }
    rewrite encode_dict_cons in Hfuel |- *. rewrite !length_append in Hfuel.
    destruct fuel as [|fuel]; [cbn in Hfuel; lia|].
    rewrite !append_assoc, append_cons, scan_once_S. cbv beta iota.
    cbn [Ascii.eqb Bool.eqb dquote]. cbv beta iota.
    change ("" +:+ ?s) with s.
    rewrite skip_ws_newline_indent, skip_ws_opens
      by (eexists _, _; split; [apply append_cons|by left]).
    rewrite object_dispatch.
    rewrite object_items_encode; [|done..|].
    + cbn [mbind option_bind]. by rewrite dict_of_pairs_nodup.
    + rewrite !length_append. cbn in Hfuel |- *. lia.
Qed.

(** [json.loads(json.dumps(v, indent=4)) == v] *)
Lemma loads_dumps v : json_wf v → loads (dumps v) = Return v.
Proof.
  intros Hwf. unfold loads, dumps.
  rewrite <- (append_nil_r (encode 0 v)) at 2.
  rewrite skip_ws_opens by apply encode_opens.
  by rewrite scan_once_encode.
Qed.



End JsonFacts.

(** ** Running the monad *)

Lemma bind_run {A B} (m : M A) (f : A → M B) w :
  (m ≫= f) w =
  match m w with
  | (w', Return a) => f a w'
  | (w', Raise e) => (w', Raise e)
  end.
Proof. reflexivity. Qed.

Lemma world_eq w1 w2 :
  scans_dir w1 = scans_dir w2 → console w1 = console w2 →
  clock w1 = clock w2 → clock_reads w1 = clock_reads w2 →
  entropy w1 = entropy w2 → entropy_reads w1 = entropy_reads w2 →
  disk w1 = disk w2 → disk_uses w1 = disk_uses w2 →
  HAS_PYGAME w1 = HAS_PYGAME w2 → mixer_error w1 = mixer_error w2 → w1 = w2.
Proof. destruct w1, w2; cbn; congruence. Qed.

Lemma snoc_app {A} (l : list A) a l' : (l ++ [a]) ++ l' = l ++ a :: l'.
Proof. by rewrite <- app_assoc. Qed.

(** ** save_scan *)

Lemma save_scan_unfold d w :
  save_scan d w =
  (let t := clock w (clock_reads w) in
   let b := disk w (disk_uses w) in
  try_except
    (dir_exists ← os_path_exists_scans;
     (if negb dir_exists then os_makedirs_scans b else mret ());;
     open_w b (scan_filename t);;
     json_dump b d (scan_filename t);;
     print_colored "GREEN" ("[+] Scan saved to " +:+ scans_path (scan_filename t));;
     play_sound "scan_complete.wav")
    (λ e, print_colored "RED" ("[!] Failed to save scan: " +:+ exn_msg e))) (tick_disk (tick_clock w)).
Proof. reflexivity. Qed.

(** [save_scan] never raises, and [save_world] is the world it leaves. *)
Lemma save_scan_eq d w : save_scan d w = (save_world d w, Return ()).
Proof.
  rewrite save_scan_unfold. unfold save_world, save_dir, save_events, save_failure, sound_events.
  generalize (disk w (disk_uses w)); intros [[?|] [?|] [[??]|]];
    destruct w as [[?|] ? ? ? ? ? ? ? [|] [?|]];
    try reflexivity.
  all: apply injective_projections; [apply world_eq|]; try reflexivity.
  all: first
    [ etrans; [|apply (f_equal Some), insert_insert_eq]; reflexivity
    | etrans; [|apply snoc_app]; reflexivity ].
Qed.

(** ** Generating the findings *)

Lemma report_finding_run i r w :
  report_finding i r w = (emit_all (finding_events i) w, Return (append_finding r sql_injection)).
Proof. reflexivity. Qed.

Lemma emit_all_app evs1 evs2 w : emit_all evs2 (emit_all evs1 w) = emit_all (evs1 ++ evs2) w.
Proof. unfold emit_all. by rewrite foldl_app. Qed.

Lemma emit_all_frame evs w :
  scans_dir (emit_all evs w) = scans_dir w ∧
  console (emit_all evs w) = console w ++ evs ∧
  clock (emit_all evs w) = clock w ∧
  clock_reads (emit_all evs w) = clock_reads w ∧
  entropy (emit_all evs w) = entropy w ∧
  entropy_reads (emit_all evs w) = entropy_reads w ∧
  disk (emit_all evs w) = disk w ∧
  disk_uses (emit_all evs w) = disk_uses w ∧
  HAS_PYGAME (emit_all evs w) = HAS_PYGAME w ∧
  mixer_error (emit_all evs w) = mixer_error w.
Proof.
  revert w. induction evs as [|e evs IH]; intros w.
  - cbn. by rewrite app_nil_r.
  - change (emit_all (e :: evs) w) with (emit_all evs (emit e w)).
    destruct (IH (emit e w)) as (-> & -> & -> & -> & -> & -> & -> & -> & -> & ->).
    cbn. by rewrite <- app_assoc.
Qed.

Lemma for_each_report_finding n : ∀ start r w,
  for_each (seq start n) report_finding r w =
  (emit_all (mbind finding_events (seq start n)) w, Return (add_findings r n)).
Proof.
  induction n as [|n IH]; intros start r w.
  - cbn. unfold add_findings. cbn. rewrite !app_nil_r. by destruct r.
  - cbn [seq for_each]. rewrite bind_run, report_finding_run, IH, emit_all_app.
    f_equal. unfold add_findings, append_finding. cbn. by rewrite <- app_assoc.
Qed.

Lemma scan_website_findings_eq r w :
  scan_website_findings r w =
  (save_world (add_findings r (drawn w))
     (emit_all (findings_events (drawn w)) (tick_entropy w)),
   Return (add_findings r (drawn w))).
Proof.
  unfold scan_website_findings. rewrite bind_run.
  change (random_randint 1 5 w) with (tick_entropy w, Return (drawn w)). cbv beta iota.
  change (0 <? drawn w) with true. cbv iota.
  rewrite !bind_run.
  change (print_colored "RED" "[!] Potential vulnerabilities found!" (tick_entropy w))
    with (emit_all [Print found_line] (tick_entropy w), Return ()).
  cbv beta iota. rewrite for_each_report_finding. cbv beta iota.
  rewrite bind_run.
  match goal with |- context [print_colored "GREEN" ?t ?w0] =>
    change (print_colored "GREEN" t w0) with (emit_all [Print completed_line] w0, Return ()) end.
  cbv beta iota. rewrite !emit_all_app.
  rewrite bind_run, save_scan_eq. reflexivity.
Qed.

Lemma save_events_frame w1 w2 :
  scans_dir w1 = scans_dir w2 → clock w1 = clock w2 → clock_reads w1 = clock_reads w2 →
  disk w1 = disk w2 → disk_uses w1 = disk_uses w2 →
  HAS_PYGAME w1 = HAS_PYGAME w2 → mixer_error w1 = mixer_error w2 →
  save_failure w1 = save_failure w2 ∧ save_events w1 = save_events w2.
Proof.
  intros Hd Hc Hcr Hk Hku Hp Hm.
  assert (save_failure w1 = save_failure w2) as Hf.
  { unfold save_failure. by rewrite Hd, Hk, Hku. }
  split; [done|].
  unfold save_events, sound_events. by rewrite Hf, Hc, Hcr, Hp, Hm.
Qed.

Lemma scan_website_findings_console r w :
  console (scan_website_findings r w).1 =
  console w ++ findings_events (drawn w) ++ save_events w.
Proof.
  rewrite scan_website_findings_eq. cbn [fst save_world console].
  destruct (emit_all_frame (findings_events (drawn w)) (tick_entropy w))
    as (Hd & -> & Hc & Hcr & _ & _ & Hk & Hku & Hp & Hm).
  rewrite <- app_assoc. do 2 f_equal.
  by apply save_events_frame.
Qed.

Lemma new_events_app {A} (m : M A) w evs :
  console (m w).1 = console w ++ evs → new_events m w = evs.
Proof. unfold new_events. intros ->. by rewrite drop_app_length. Qed.

Lemma red_line_differs text : Print no_vulnerabilities_line ≠ Print (colored "RED" text).
Proof. discriminate. Qed.

Lemma finding_events_quiet i : Print no_vulnerabilities_line ∉ finding_events i.
Proof.
  unfold finding_events. intros H.
  repeat (apply elem_of_cons in H as [H|H]; [by apply red_line_differs in H|]).
  by apply elem_of_nil in H.
Qed.

Lemma findings_events_quiet n : Print no_vulnerabilities_line ∉ findings_events n.
Proof.
  unfold findings_events. rewrite not_elem_of_cons, not_elem_of_app. repeat split.
  - apply red_line_differs.
  - rewrite list_elem_of_bind. intros (i & Hi & _). by apply finding_events_quiet in Hi.
  - rewrite list_elem_of_singleton. discriminate.
Qed.

Lemma save_events_quiet w : Print no_vulnerabilities_line ∉ save_events w.
Proof.
  unfold save_events, sound_events.
  destruct (save_failure w), (HAS_PYGAME w), (mixer_error w);
    rewrite ?not_elem_of_cons; repeat split; try apply not_elem_of_nil; discriminate.
Qed.

(** ** The names of the saved files *)

Lemma compare_cons_same c r1 r2 :
  String.compare (String c r1) (String c r2) = String.compare r1 r2.
Proof.
  cbn. unfold Ascii.compare. by rewrite N.compare_refl.
Qed.

Lemma compare_digit x y r1 r2 :
  x < 10 → y < 10 →
  String.compare (String (digit x) r1) (String (digit y) r2) =
  lex (x ?= y) (String.compare r1 r2).
Proof.
  intros Hx Hy.
  do 10 (destruct x as [|x]; [do 10 (destruct y as [|y]; [reflexivity|]); lia|]).
  lia.
Qed.

Lemma lex_assoc a b c : lex (lex a b) c = lex a (lex b c).
Proof. by destruct a. Qed.

Lemma compare_two_digits a1 a0 b1 b0 :
  a0 < 10 → b0 < 10 →
  lex (a1 ?= b1) (a0 ?= b0) = (10 * a1 + a0 ?= 10 * b1 + b0).
Proof.
  intros. unfold lex.
  destruct (Nat.compare_spec a1 b1), (Nat.compare_spec a0 b0),
    (Nat.compare_spec (10 * a1 + a0) (10 * b1 + b0)); try done; lia.
Qed.

Lemma compare_pad2 a b r1 r2 :
  a < 100 → b < 100 →
  String.compare (pad2 a +:+ r1) (pad2 b +:+ r2) = lex (a ?= b) (String.compare r1 r2).
Proof.
  intros Ha Hb. unfold pad2. rewrite !append_cons.
  pose proof (Nat.mod_upper_bound a 10). pose proof (Nat.mod_upper_bound b 10).
  pose proof (Nat.mod_upper_bound (a / 10) 10). pose proof (Nat.mod_upper_bound (b / 10) 10).
  rewrite !compare_digit by lia.
  change ("" +:+ r1) with r1. change ("" +:+ r2) with r2.
  rewrite <- lex_assoc. f_equal.
  rewrite compare_two_digits by lia.
  rewrite (Nat.mod_small (a / 10)), (Nat.mod_small (b / 10))
    by (apply Nat.Div0.div_lt_upper_bound; lia).
  rewrite <- (Nat.div_mod_eq a 10), <- (Nat.div_mod_eq b 10). done.
Qed.

Lemma pad4_pad2 n : pad4 n = pad2 (n / 100) +:+ pad2 (n mod 100).
Proof.
  unfold pad4, pad2. rewrite !append_cons. change ("" +:+ ?s) with s.
  rewrite !Nat.Div0.div_div. cbn [Nat.mul].
  replace (n mod 100 / 10 mod 10) with (n / 10 mod 10).
  2:{ change 100 with (10 * 10). rewrite Nat.Div0.mod_mul_r.
      rewrite (Nat.mul_comm 10), Nat.div_add by lia.
      rewrite (Nat.div_small (n mod 10)) by (apply Nat.mod_upper_bound; lia).
      by rewrite Nat.add_0_l, Nat.Div0.mod_mod. }
  replace (n mod 100 mod 10) with (n mod 10).
  2:{ change 100 with (10 * 10). rewrite Nat.Div0.mod_mul_r.
      by rewrite (Nat.mul_comm 10), Nat.Div0.mod_add, Nat.Div0.mod_mod. }
  done.
Qed.

Lemma compare_pad4 a b r1 r2 :
  a < 100 * 100 → b < 100 * 100 →
  String.compare (pad4 a +:+ r1) (pad4 b +:+ r2) = lex (a ?= b) (String.compare r1 r2).
Proof.
  intros Ha Hb. rewrite !pad4_pad2, !append_assoc.
  pose proof (Nat.mod_upper_bound a 100). pose proof (Nat.mod_upper_bound b 100).
  rewrite !compare_pad2 by (try apply Nat.Div0.div_lt_upper_bound; lia).
  rewrite <- lex_assoc. f_equal.
  unfold lex.
  pose proof (Nat.div_mod_eq a 100). pose proof (Nat.div_mod_eq b 100).
  destruct (Nat.compare_spec (a / 100) (b / 100)), (Nat.compare_spec (a mod 100) (b mod 100)),
    (Nat.compare_spec a b); try done; lia.
Qed.

Lemma scan_filename_eq t :
  scan_filename t =
  "scan_" +:+ pad4 (year t) +:+ pad2 (month t) +:+ pad2 (day t) +:+ "_" +:+
  pad2 (hour t) +:+ pad2 (minute t) +:+ pad2 (second t) +:+ ".json".
Proof. unfold scan_filename, strftime_stamp. by rewrite !append_assoc. Qed.

Lemma valid_datetime_bounds t :
  valid_datetime t →
  year t < 100 * 100 ∧ month t < 100 ∧ day t < 100 ∧
  hour t < 100 ∧ minute t < 100 ∧ second t < 100.
Proof.
  intros (Hy & Hm & Hd & HH & HM & HS).
  assert (days_in_month (year t) (month t) ≤ 31).
  { unfold days_in_month. repeat case_match; lia. }
  lia.
Qed.

(** The names of [save_scan] are ordered like the seconds they are made of. *)
Lemma scan_filename_compare t1 t2 :
  valid_datetime t1 → valid_datetime t2 →
  String.compare (scan_filename t1) (scan_filename t2) = second_compare t1 t2.
Proof.
  intros (?&?&?&?&?&?)%valid_datetime_bounds (?&?&?&?&?&?)%valid_datetime_bounds.
  rewrite !scan_filename_eq. unfold second_compare.
  rewrite !(append_cons _ _ (pad4 _ +:+ _)), !compare_cons_same.
  change ("" +:+ ?s) with s.
  rewrite compare_pad4, !compare_pad2 by done.
  rewrite !append_cons, compare_cons_same. change ("" +:+ ?s) with s.
  rewrite !compare_pad2 by done.
  change (String.compare ".json" ".json") with Eq.
  by destruct (second t1 ?= second t2).
Qed.

Lemma same_second_filename t1 t2 :
  same_second t1 t2 → scan_filename t1 = scan_filename t2.
Proof.
  unfold same_second, second_compare, lex. intros H.
  assert (year t1 = year t2 ∧ month t1 = month t2 ∧ day t1 = day t2 ∧
          hour t1 = hour t2 ∧ minute t1 = minute t2 ∧ second t1 = second t2)
    as (Hy & Hm & Hd & HH & HM & HS).
  { destruct (Nat.compare_spec (year t1) (year t2)); try done.
    destruct (Nat.compare_spec (month t1) (month t2)); try done.
    destruct (Nat.compare_spec (day t1) (day t2)); try done.
    destruct (Nat.compare_spec (hour t1) (hour t2)); try done.
    destruct (Nat.compare_spec (minute t1) (minute t2)); try done.
    destruct (Nat.compare_spec (second t1) (second t2)); try done. }
  unfold scan_filename, strftime_stamp. by rewrite Hy, Hm, Hd, HH, HM, HS.
Qed.

(** ** Sorting the names *)

Global Instance str_ge_total : Total str_ge.
Proof. intros a b. unfold str_ge. destruct (total String.le b a); auto. Qed.
Global Instance str_ge_trans : Transitive str_ge.
Proof. intros a b c Hab Hbc. unfold str_ge in *. by etrans. Qed.
Global Instance str_ge_antisymm : AntiSymm (=) str_ge.
Proof. intros a b Hab Hba. unfold str_ge in *. by apply (anti_symm String.le). Qed.

Lemma sorted_reverse_unique names target :
  names ≡ₚ target → Sorted str_ge target → sorted_reverse names = target.
Proof.
  intros Hperm Hsorted. unfold sorted_reverse.
  apply (Sorted_unique str_ge); [|done|].
  - apply Sorted_merge_sort, _.
  - by rewrite merge_sort_Permutation.
Qed.

Lemma compare_lt_le a b : String.compare a b = Lt → String.le a b.
Proof. unfold String.le, String.leb. by intros ->. Qed.

Lemma compare_refl a : String.compare a a = Eq.
Proof. induction a as [|c a IH]; [done|]. by rewrite compare_cons_same. Qed.

Lemma compare_lt_ne a b : String.compare a b = Lt → a ≠ b.
Proof. intros H ->. rewrite compare_refl in H. discriminate. Qed.

Section names.
Context (w : World) (n : nat) (Hclock : clock_advances w n).

Lemma next_names_lookup i : i < n → next_names w n !! i = Some (scan_filename (now_at w i)).
Proof.
  intros Hi. unfold next_names. rewrite list_lookup_fmap, lookup_seq_lt by done. done.
Qed.

Lemma next_names_compare i j :
  i < j < n →
  String.compare (scan_filename (now_at w i)) (scan_filename (now_at w j)) = Lt.
Proof.
  intros Hij. destruct Hclock as [Hvalid Horder].
  rewrite scan_filename_compare by (apply Hvalid; lia). by apply Horder.
Qed.

Lemma next_names_NoDup : NoDup (next_names w n).
Proof.
  apply NoDup_alt. intros i j x Hi Hj.
  pose proof (lookup_lt_Some _ _ _ Hi) as Hin.
  pose proof (lookup_lt_Some _ _ _ Hj) as Hjn.
  unfold next_names in Hin, Hjn. rewrite length_fmap, length_seq in Hin, Hjn.
  rewrite next_names_lookup in Hi, Hj by done.
  destruct (Nat.lt_trichotomy i j) as [Hlt|[->|Hlt]]; [|done|].
  - assert (i < j < n) as H%next_names_compare%compare_lt_ne by lia. congruence.
  - assert (j < i < n) as H%next_names_compare%compare_lt_ne by lia. congruence.
Qed.

Lemma next_names_sorted : Sorted str_ge (reverse (next_names w n)).
Proof.
  apply Sorted_reverse with (R := String.le).
  apply StronglySorted_Sorted.
  unfold next_names.
  assert (∀ k m, k + m ≤ n →
    StronglySorted String.le ((λ i, scan_filename (now_at w i)) <$> seq k m)) as H.
  { intros k m. revert k. induction m as [|m IH]; intros k Hk; cbn; constructor.
    - apply IH. lia.
    - apply Forall_fmap, Forall_forall. intros j [? ?]%elem_of_seq.
      apply compare_lt_le, next_names_compare. lia. }
  apply (H 0 n). lia.
Qed.
End names.


(** ** Saving several reports *)

Lemma healthy_no_failure w : disk w (disk_uses w) = healthy → save_failure w = None.
Proof. unfold save_failure. intros ->. by destruct (scans_dir w). Qed.

Lemma save_world_dir d w :
  save_failure w = None →
  scans_dir (save_world d w) =
  Some (<[scan_filename (now_at w 0) := Json.dumps (json_of_scan d)]> (files w)).
Proof.
  unfold save_failure, save_world, save_dir. cbn [scans_dir].
  destruct (scans_dir w), (disk w (disk_uses w)) as [[?|] [?|] [[??]|]]; done.
Qed.

Lemma save_world_now d w i : now_at (save_world d w) i = now_at w (S i).
Proof. unfold now_at. cbn. by rewrite Nat.add_succ_r. Qed.

Lemma save_world_disk_sound d w n : disk_sound w (S n) → disk_sound (save_world d w) n.
Proof.
  intros H i Hi. cbn. rewrite Nat.add_succ_r. apply (H (S i)). lia.
Qed.

Lemma next_names_S w d n :
  next_names w (S n) = scan_filename (now_at w 0) :: next_names (save_world d w) n.
Proof.
  unfold next_names. cbn [seq fmap list_fmap]. f_equal.
  rewrite <- fmap_S_seq, <- list_fmap_compose.
  apply list_fmap_ext. intros _ i _. unfold compose. by rewrite save_world_now.
Qed.

Lemma save_all_eq ds w :
  save_all ds w = (foldl (λ w d, save_world d w) w ds, Return ()).
Proof.
  revert w. induction ds as [|d ds IH]; intros w; [done|].
  unfold save_all in *. cbn [for_each foldl]. by rewrite bind_run, save_scan_eq, IH.
Qed.

(** After sound saves the directory exists and holds the old names and the
    names of the new reports. *)
Lemma save_world_files d w :
  save_failure w = None →
  files (save_world d w) =
  <[scan_filename (now_at w 0) := Json.dumps (json_of_scan d)]> (files w).
Proof. intros H. unfold files at 1. by rewrite save_world_dir. Qed.

Lemma save_all_names ds : ∀ w,
  disk_sound w (length ds) → ds ≠ [] →
  ∃ fs, scans_dir (save_all ds w).1 = Some fs ∧
        ∀ x, is_Some (fs !! x) ↔ is_Some (files w !! x) ∨ x ∈ next_names w (length ds).
Proof.
  induction ds as [|d ds IH]; intros w Hdisk Hne; [done|].
  rewrite save_all_eq. cbn [fst foldl length].
  assert (save_failure w = None) as Hd
    by (apply healthy_no_failure, (Hdisk 0); cbn; lia).
  pose proof (save_world_dir d w Hd) as Hdir.
  pose proof (save_world_files d w Hd) as Hfiles.
  rewrite (next_names_S w d).
  destruct ds as [|d' ds].
  - eexists. split; [exact Hdir|]. intros x. cbn.
    rewrite lookup_insert_is_Some, elem_of_cons, elem_of_nil.
    destruct (decide (scan_filename (now_at w 0) = x)); intuition.
  - destruct (IH (save_world d w)) as (fs & Hfs & Hnames).
    { apply save_world_disk_sound, Hdisk. }
    { done. }
    rewrite save_all_eq in Hfs. exists fs. split; [exact Hfs|].
    intros x. rewrite Hnames, Hfiles.
    rewrite lookup_insert_is_Some, elem_of_cons.
    destruct (decide (scan_filename (now_at w 0) = x)); intuition.
Qed.

(** The names [view_history] goes through after [n] sound saves into an
    empty store: all of them, the most recent first. *)
Lemma history_after_saves ds w :
  files w = ∅ → ds ≠ [] →
  disk_sound w (length ds) → clock_advances w (length ds) →
  ∃ names, os_listdir_scans (save_all ds w).1 = ((save_all ds w).1, Return names) ∧
           history_scans names = reverse (next_names w (length ds)).
Proof.
  intros Hempty Hne Hdisk Hclock.
  destruct (save_all_names ds w Hdisk Hne) as (fs & Hfs & Hnames).
  exists (map_to_list fs).*1. split.
  - unfold os_listdir_scans. by rewrite Hfs.
  - apply sorted_reverse_unique; [|by apply next_names_sorted].
    rewrite reverse_Permutation.
    apply NoDup_Permutation.
    + apply NoDup_fst_map_to_list.
    + by apply next_names_NoDup.
    + intros x. rewrite list_elem_of_fmap. split.
      * intros ([k v] & -> & Hkv%elem_of_map_to_list). cbn.
        destruct (Hnames k) as [[H|H] _]; [by eexists| |done].
        rewrite Hempty, lookup_empty in H. by destruct H.
      * intros Hx. destruct (Hnames x) as [_ [v Hv]]; [by right|].
        exists (x, v). split; [done|]. by apply elem_of_map_to_list.
Qed.

(** ** The listing of view_history *)

Lemma avoids_app c a b : avoids c a → avoids c b → avoids c (a +:+ b).
Proof. induction a as [|x a IH]; [done|]. intros [??] ?. split; auto. Qed.

Lemma digit_avoids c d :
  c = "_"%char ∨ c = "."%char → digit (d mod 10) ≠ c.
Proof.
  pose proof (Nat.mod_upper_bound d 10 ltac:(lia)) as H.
  intros Hc. generalize dependent (d mod 10). intros k Hk.
  do 10 (destruct k as [|k]; [destruct Hc as [-> | ->]; discriminate|]). lia.
Qed.

Lemma pad2_avoids c n : c = "_"%char ∨ c = "."%char → avoids c (pad2 n).
Proof. intros Hc. unfold pad2. repeat split; by apply digit_avoids. Qed.

Lemma pad4_avoids c n : c = "_"%char ∨ c = "."%char → avoids c (pad4 n).
Proof. intros Hc. unfold pad4, pad2. repeat split; by apply digit_avoids. Qed.

Lemma strftime_date_avoids c t :
  c = "_"%char ∨ c = "."%char → avoids c (strftime_date t).
Proof.
  intros Hc. unfold strftime_date.
  auto using avoids_app, pad2_avoids, pad4_avoids.
Qed.

Lemma strftime_time_avoids c t :
  c = "_"%char ∨ c = "."%char → avoids c (strftime_time t).
Proof.
  intros Hc. unfold strftime_time. auto using avoids_app, pad2_avoids.
Qed.

Lemma length_strftime_date t : String.length (strftime_date t) = 8.
Proof. reflexivity. Qed.

Lemma replace_go_suffix s :
  avoids "." s → replace_go ".json" "" 0 (s +:+ ".json") = s.
Proof.
  induction s as [|x s IH]; [done|]. intros [Hx Hs].
  rewrite append_cons. cbn [replace_go String.prefix].
  destruct (ascii_dec "." x) as [<-|_]; [done|]. by rewrite IH.
Qed.

Lemma str_split_sep sep a b :
  avoids sep a → str_split sep (a +:+ String sep b) = a :: str_split sep b.
Proof.
  induction a as [|x a IH]; intros Ha.
  - change ("" +:+ ?s) with s. cbn [str_split]. by rewrite Ascii.eqb_refl.
  - destruct Ha as [Hx Ha]. rewrite append_cons. cbn [str_split].
    apply Ascii.eqb_neq in Hx as ->. by rewrite IH.
Qed.

Lemma str_split_none sep a : avoids sep a → str_split sep a = [a].
Proof.
  induction a as [|x a IH]; [done|]. intros [Hx Ha]. cbn [str_split].
  apply Ascii.eqb_neq in Hx as ->. by rewrite IH.
Qed.

(** Line 147 on a name of [save_scan]: the timestamp is the date alone. *)
Lemma scan_filename_split t :
  str_split "_" (str_replace ".json" "" (scan_filename t)) =
  ["scan"; strftime_date t; strftime_time t].
Proof.
  assert (scan_filename t =
          ("scan_" +:+ strftime_date t +:+ "_" +:+ strftime_time t) +:+ ".json") as ->.
  { unfold scan_filename, strftime_stamp, strftime_date, strftime_time.
    by rewrite !append_assoc. }
  unfold str_replace. rewrite replace_go_suffix.
  2:{ apply avoids_app; [repeat split; discriminate|].
      apply avoids_app; [apply strftime_date_avoids; by right|].
      apply avoids_app; [repeat split; discriminate|].
      apply strftime_time_avoids. by right. }
  change ("scan_" +:+ ?s) with ("scan" +:+ String "_" s).
  rewrite str_split_sep by (repeat split; discriminate).
  change ("_" +:+ ?s) with (String "_" s).
  rewrite str_split_sep by (apply strftime_date_avoids; by left).
  rewrite str_split_none by (apply strftime_time_avoids; by left).
  done.
Qed.

Ltac reading_cases H :=
  repeat (case_match; try by apply elem_of_nil in H);
  apply list_elem_of_singleton in H; simplify_eq; cbn; lia.

Lemma readings_consumes two one : consumes 1 (readings two one).
Proof.
  intros s v r H. unfold readings in H.
  apply elem_of_app in H as [H|H]; reading_cases H.
Qed.

Lemma group_d_consumes : consumes 1 group_d.
Proof.
  intros s v r H. unfold group_d in H.
  apply elem_of_app in H as [H|H]; [by apply readings_consumes in H|].
  reading_cases H.
Qed.

Lemma group_Y_consumes : consumes 4 group_Y.
Proof. intros s v r H. unfold group_Y in H. reading_cases H. Qed.

Lemma first_reading_length k n rest cands s :
  (∀ v r, (v, r) ∈ cands → k + String.length r ≤ String.length s) →
  (∀ s' vs r, rest s' = Some (vs, r) → n + String.length r ≤ String.length s') →
  ∀ vs r, first_reading rest cands = Some (vs, r) →
          k + n + String.length r ≤ String.length s.
Proof.
  intros Hcands Hrest. induction cands as [|[v r'] cands IH]; intros vs r H; [done|].
  cbn in H. destruct (rest r') as [[vs' r'']|] eqn:Hr.
  - simplify_eq. apply Hrest in Hr.
    pose proof (Hcands v r' ltac:(left)). lia.
  - apply (IH (λ v0 r0 Hin, Hcands v0 r0 (list_elem_of_further _ _ _ Hin)) _ _ H).
Qed.

Lemma match_groups_cons_length k n g gs :
  consumes k g →
  (∀ s vs r, match_groups gs s = Some (vs, r) → n + String.length r ≤ String.length s) →
  ∀ s vs r, match_groups (g :: gs) s = Some (vs, r) →
            k + n + String.length r ≤ String.length s.
Proof.
  intros Hg Hgs s vs r H. cbn [match_groups] in H.
  eapply first_reading_length; [|exact Hgs|exact H].
  intros v r' Hin. by apply (Hg s v r').
Qed.

(** A text matched by the six groups has at least nine characters. *)
Lemma match_groups_needs_nine s vs r :
  match_groups [group_Y; group_m; group_d; group_H; group_M; group_S] s = Some (vs, r) →
  9 ≤ String.length s.
Proof.
  intros H.
  eapply (match_groups_cons_length 4 5) in H; [lia|apply group_Y_consumes|].
  eapply (match_groups_cons_length 1 4); [apply readings_consumes|].
  eapply (match_groups_cons_length 1 3); [apply group_d_consumes|].
  eapply (match_groups_cons_length 1 2); [apply readings_consumes|].
  eapply (match_groups_cons_length 1 1); [apply readings_consumes|].
  eapply (match_groups_cons_length 1 0); [apply readings_consumes|].
  intros ? ? ? [= <- <-]. lia.
Qed.

Lemma strptime_short s w :
  String.length s < 9 → strptime_YmdHMS s w = (w, Raise (time_data_error s)).
Proof.
  intros Hlen. unfold strptime_YmdHMS.
  destruct (match_groups _ s) as [[vs r]|] eqn:H; [|done].
  apply match_groups_needs_nine in H. lia.
Qed.

(** Lines 147-148 on a name of [save_scan]: [strptime] is given the eight
    characters of the date and raises [ValueError]. *)
Lemma scan_file_date_raises t w :
  scan_file_date (scan_filename t) w = (w, Raise (time_data_error (strftime_date t))).
Proof.
  unfold scan_file_date. rewrite scan_filename_split.
  rewrite bind_run. cbn [list_index lookup list_lookup mret M_ret].
  apply strptime_short. rewrite length_strftime_date. lia.
Qed.

Lemma listdir_nonempty (fs : gmap string string) : fs ≠ ∅ → (map_to_list fs).*1 ≠ [].
Proof. intros Hne H%fmap_nil_inv%map_to_list_empty_iff. done. Qed.

(** With stored scans, [view_history_listing] prints two lines and runs the
    loop of lines 146-149 over the first ten sorted names. *)
Lemma view_history_listing_loop w fs :
  scans_dir w = Some fs → fs ≠ ∅ →
  view_history_listing w =
  (for_each (enumerate (take 10 (history_scans (map_to_list fs).*1))) list_scan ();;
   mret (Some (history_scans (map_to_list fs).*1)))
    (emit_all [Print banner_line; Print history_header] w).
Proof.
  intros Hdir Hne%listdir_nonempty.
  destruct w as [sd con clk cr ent er dsk du pg mx]. cbn in Hdir. subst sd.
  unfold view_history_listing.
  rewrite bind_run. change (banner ?w) with (emit (Print banner_line) w, Return ()).
  cbv beta iota.
  rewrite bind_run. change (print ?l ?w) with (emit (Print l) w, Return ()).
  cbv beta iota.
  rewrite bind_run. cbn [os_path_exists_scans emit scans_dir].
  change (bool_decide (is_Some (Some fs))) with true. cbv iota.
  rewrite bind_run. cbn [os_listdir_scans emit scans_dir negb orb].
  rewrite bool_decide_eq_false_2 by done.
  reflexivity.
Qed.

(** A loop raises as soon as the body raises on one of its elements. *)
Lemma for_each_raises {A} (body : A → unit → M unit) xs x :
  x ∈ xs → (∀ w, is_raise (body x () w).2) → ∀ w, is_raise (for_each xs body () w).2.
Proof.
  intros Hx Hraise. induction xs as [|y ys IH]; intros w; [by apply elem_of_nil in Hx|].
  cbn [for_each]. rewrite bind_run.
  destruct (body y () w) as [w' [[]|e]] eqn:Hy; [|by eexists].
  apply elem_of_cons in Hx as [->|Hx]; [|by apply IH].
  destruct (Hraise w) as [e He]. rewrite Hy in He. done.
Qed.

Lemma enumerate_elem {A} (l : list A) x : x ∈ l → ∃ i, (i, x) ∈ enumerate l.
Proof.
  intros [i Hi]%list_elem_of_lookup. exists i. apply list_elem_of_lookup. exists i.
  unfold enumerate. rewrite lookup_zip_with, Hi.
  rewrite lookup_seq_lt by (by eapply lookup_lt_Some). done.
Qed.

Lemma list_scan_raises i t w :
  list_scan (i, scan_filename t) () w = (w, Raise (time_data_error (strftime_date t))).
Proof. unfold list_scan. by rewrite bind_run, scan_file_date_raises. Qed.

Lemma view_history_listing_raises w fs t :
  scans_dir w = Some fs →
  scan_filename t ∈ take 10 (history_scans (map_to_list fs).*1) →
  is_raise (view_history_listing w).2.
Proof.
  intros Hdir Hin.
  assert (fs ≠ ∅) as Hne.
  { intros ->. rewrite map_to_list_empty in Hin. by apply elem_of_nil in Hin. }
  rewrite (view_history_listing_loop w fs) by done. rewrite bind_run.
  apply enumerate_elem in Hin as [i Hi].
  destruct (for_each_raises list_scan _ _ Hi
              (λ w0, ex_intro _ _ (f_equal snd (list_scan_raises i t w0)))
              (emit_all [Print banner_line; Print history_header] w)) as [e He].
  destruct (for_each _ _ _ _) as [w' o]. cbn in He. subst o. by eexists.
Qed.

(** When every stored name is one of [save_scan], the first name of the
    listing already fails, with [ValueError]. *)
Lemma view_history_listing_ValueError w fs :
  scans_dir w = Some fs → fs ≠ ∅ →
  (∀ name, is_Some (fs !! name) → ∃ t, name = scan_filename t) →
  raised (view_history_listing w).2 = Some "ValueError".
Proof.
  intros Hdir Hne Hall.
  rewrite (view_history_listing_loop w fs) by done. rewrite bind_run.
  pose proof (listdir_nonempty fs Hne) as Hnames.
  assert (history_scans (map_to_list fs).*1 ≡ₚ (map_to_list fs).*1) as Hperm
    by apply merge_sort_Permutation.
  destruct (history_scans (map_to_list fs).*1) as [|name scans] eqn:Hs.
  { apply Permutation_nil_l in Hperm. done. }
  assert (name ∈ (map_to_list fs).*1) as Hin by (rewrite <- Hperm; left).
  apply list_elem_of_fmap in Hin as ([k v] & -> & Hkv%elem_of_map_to_list).
  destruct (Hall k) as [t ->]; [by eexists|].
  cbn [take enumerate length seq zip zip_with for_each fst].
  by rewrite bind_run, list_scan_raises.
Qed.

(** [save_scan] leaves the files alone or writes the one it names. *)
Lemma save_world_files_cases d w :
  files (save_world d w) = files w ∨
  ∃ text, files (save_world d w) = <[scan_filename (now_at w 0) := text]> (files w).
Proof.
  unfold save_world, save_dir, files at 1 3. cbn [scans_dir].
  destruct (scans_dir w) eqn:Hdir, (disk w (disk_uses w)) as [[?|] [?|] [[??]|]];
    cbn [default makedirs_error open_error write_error id];
    first [by left | right; by eexists | left; unfold files; by rewrite Hdir].
Qed.

(** [save_scan] keeps the directory to the names it gives. *)
Lemma save_scan_only_saved_scans d w :
  only_saved_scans w → only_saved_scans (save_scan d w).1.
Proof.
  intros Hw name. rewrite save_scan_eq. cbn [fst].
  destruct (save_world_files_cases d w) as [->|[text ->]]; [apply Hw|].
  rewrite lookup_insert_is_Some. intros [<-|[_ H]]; [by eexists|by apply Hw].
Qed.

Lemma json_of_scan_wf d : JsonAux.json_wf (json_of_scan d).
Proof.
  constructor; [by apply (bool_decide_unpack _)|].
  repeat constructor. apply Forall_fmap, Forall_forall. intros f _.
  constructor; [by apply (bool_decide_unpack _)|]. repeat constructor.
Qed.

(** ** More on save_scan *)

Lemma save_all_cons d ds w : (save_all (d :: ds) w).1 = (save_all ds (save_world d w)).1.
Proof. by rewrite !save_all_eq. Qed.

Lemma save_all_frame ds : ∀ w name,
  name ∉ next_names w (length ds) →
  files (save_all ds w).1 !! name = files w !! name.
Proof.
  induction ds as [|d ds IH]; intros w name Hname; [done|].
  cbn [length] in Hname.
  rewrite (next_names_S w d) in Hname. apply not_elem_of_cons in Hname as [Hne Hname].
  rewrite save_all_cons, (IH _ _ Hname).
  destruct (save_world_files_cases d w) as [->|[text ->]]; [done|].
  by rewrite lookup_insert_ne.
Qed.

Lemma clock_advances_S d w n :
  clock_advances w (S n) → clock_advances (save_world d w) n.
Proof.
  intros [Hvalid Horder]. split.
  - intros i Hi. rewrite save_world_now. apply Hvalid. lia.
  - intros i j Hij. rewrite !save_world_now. apply Horder. lia.
Qed.

Lemma clock_advances_fresh w n :
  clock_advances w (S n) →
  scan_filename (now_at w 0) ∉ (λ i, scan_filename (now_at w (S i))) <$> seq 0 n.
Proof.
  intros Hclock. rewrite list_elem_of_fmap. intros (i & Heq & [_ Hi]%elem_of_seq).
  assert (0 < S i < S n) as H%(next_names_compare w (S n) Hclock)%compare_lt_ne by lia.
  done.
Qed.

Lemma next_names_shift d w n :
  next_names (save_world d w) n = (λ i, scan_filename (now_at w (S i))) <$> seq 0 n.
Proof.
  unfold next_names. apply list_fmap_ext. intros _ j _. by rewrite save_world_now.
Qed.

Lemma save_all_lookup ds : ∀ w i d,
  disk_sound w (length ds) → clock_advances w (length ds) → ds !! i = Some d →
  files (save_all ds w).1 !! scan_filename (now_at w i) = Some (Json.dumps (json_of_scan d)).
Proof.
  induction ds as [|d0 ds IH]; intros w i d Hdisk Hclock Hi; [done|].
  cbn [length] in *.
  assert (save_failure w = None) as Hok
    by (apply healthy_no_failure, (Hdisk 0); lia).
  rewrite save_all_cons.
  destruct i as [|i].
  - injection Hi as ->. rewrite save_all_frame.
    + by rewrite save_world_files, lookup_insert_eq.
    + rewrite next_names_shift. by apply clock_advances_fresh.
  - cbn in Hi.
    specialize (IH (save_world d0 w) i d (save_world_disk_sound _ _ _ Hdisk)
                  (clock_advances_S _ _ _ Hclock) Hi).
    by rewrite save_world_now in IH.
Qed.

(** ** Reading a date back *)

Lemma digit_value_digit d : d < 10 → digit_value (digit d) = Some d.
Proof. intros H. do 10 (destruct d as [|d]; [done|]). lia. Qed.

Lemma two_digits n : n < 100 → 10 * (n / 10 mod 10) + n mod 10 = n.
Proof.
  intros H. rewrite (Nat.mod_small (n / 10)) by (apply Nat.Div0.div_lt_upper_bound; lia).
  by rewrite <- Nat.div_mod_eq.
Qed.

Lemma readings_pad2 two one n rest :
  n < 100 → two n = true →
  ∃ more, readings two one (pad2 n +:+ rest) = (n, rest) :: more.
Proof.
  intros Hn Htwo. unfold readings, pad2. rewrite !append_cons.
  change ("" +:+ rest) with rest.
  rewrite !digit_value_digit by (apply Nat.mod_upper_bound; lia).
  rewrite two_digits, Htwo by done. by eexists.
Qed.

Lemma group_Y_pad4 n rest :
  n < 100 * 100 → group_Y (pad4 n +:+ rest) = [(n, rest)].
Proof.
  intros Hn. rewrite pad4_pad2, append_assoc. unfold group_Y, pad2.
  rewrite !append_cons. change ("" +:+ ?s) with s.
  rewrite !digit_value_digit by (apply Nat.mod_upper_bound; lia).
  do 2 f_equal.
  pose proof (two_digits (n / 100) ltac:(apply Nat.Div0.div_lt_upper_bound; lia)).
  pose proof (two_digits (n mod 100) ltac:(apply Nat.mod_upper_bound; lia)).
  pose proof (Nat.div_mod_eq n 100). lia.
Qed.

Lemma first_reading_head rest v r more vs r' :
  rest r = Some (vs, r') → first_reading rest ((v, r) :: more) = Some (v :: vs, r').
Proof. intros H. cbn. by rewrite H. Qed.

(** [strptime] reads back what [strftime] writes with the same format. *)
Lemma strptime_strftime_compact t w :
  valid_datetime t →
  strptime_YmdHMS (strftime_compact t) w = (w, Return (whole_second t)).
Proof.
  intros Hvalid. pose proof (valid_datetime_bounds t Hvalid) as (?&?&?&?&?&?).
  destruct Hvalid as (Hy & Hm & Hd & HH & HM & HS).
  unfold strptime_YmdHMS, strftime_compact.
  assert (match_groups [group_Y; group_m; group_d; group_H; group_M; group_S]
            (pad4 (year t) +:+ pad2 (month t) +:+ pad2 (day t) +:+
             pad2 (hour t) +:+ pad2 (minute t) +:+ pad2 (second t)) =
          Some ([year t; month t; day t; hour t; minute t; second t], "")) as ->.
  { cbn [match_groups]. rewrite group_Y_pad4 by done.
    apply first_reading_head.
    destruct (readings_pad2 (λ n, (1 <=? n) && (n <=? 12)) (λ n, 1 <=? n) (month t)
                (pad2 (day t) +:+ pad2 (hour t) +:+ pad2 (minute t) +:+ pad2 (second t)))
      as [more1 Hr1]; [done| |].
    { apply andb_true_iff. split; apply Nat.leb_le; lia. }
    unfold group_m. rewrite Hr1. apply first_reading_head.
    destruct (readings_pad2 (λ n, (1 <=? n) && (n <=? 31)) (λ n, 1 <=? n) (day t)
                (pad2 (hour t) +:+ pad2 (minute t) +:+ pad2 (second t)))
      as [more2 Hr2]; [done| |].
    { assert (days_in_month (year t) (month t) ≤ 31)
        by (unfold days_in_month; repeat case_match; lia).
      apply andb_true_iff. split; apply Nat.leb_le; lia. }
    unfold group_d. rewrite Hr2. cbn [app]. apply first_reading_head.
    destruct (readings_pad2 (λ n, n <=? 23) (λ _, true) (hour t)
                (pad2 (minute t) +:+ pad2 (second t)))
      as [more3 Hr3]; [done| |].
    { apply Nat.leb_le. lia. }
    unfold group_H. rewrite Hr3. apply first_reading_head.
    destruct (readings_pad2 (λ n, n <=? 59) (λ _, true) (minute t) (pad2 (second t)))
      as [more4 Hr4]; [done| |].
    { apply Nat.leb_le. lia. }
    unfold group_M. rewrite Hr4. apply first_reading_head.
    destruct (readings_pad2 (λ n, n <=? 61) (λ _, true) (second t) "")
      as [more5 Hr5]; [done| |].
    { apply Nat.leb_le. lia. }
    unfold group_S. rewrite append_nil_r in Hr5. rewrite Hr5. by apply first_reading_head. }
  cbn [String.eqb negb].
  replace (year t =? 0) with false by (symmetry; apply Nat.eqb_neq; lia).
  replace (day t <=? days_in_month (year t) (month t)) with true
    by (symmetry; apply Nat.leb_le; lia).
  replace (second t <=? 59) with true by (symmetry; apply Nat.leb_le; lia).
  done.
Qed.

(** ** More on the listing *)

Lemma avoids_replace c skip s : avoids c s → avoids c (replace_go ".json" "" skip s).
Proof.
  revert skip. induction s as [|x s IH]; intros skip; [done|]. intros [Hx Hs].
  cbn [replace_go]. destruct skip as [|k]; [|by apply IH].
  destruct (String.prefix ".json" (String x s)); [by apply IH|].
  split; [done|by apply IH].
Qed.

Lemma strftime_compact_avoids c t :
  c = "_"%char ∨ c = "."%char → avoids c (strftime_compact t).
Proof.
  intros Hc. unfold strftime_compact.
  auto 10 using avoids_app, pad2_avoids, pad4_avoids.
Qed.

(** Lines 147-148 on a name whose second field is a full timestamp. *)
Lemma scan_file_date_compact p t w :
  avoids "_" p → avoids "." p → valid_datetime t →
  scan_file_date (p +:+ "_" +:+ strftime_compact t +:+ ".json") w =
  (w, Return (whole_second t)).
Proof.
  intros Hp Hdot Hvalid. unfold scan_file_date, str_replace.
  rewrite <- !append_assoc, replace_go_suffix.
  2:{ rewrite append_assoc. apply avoids_app; [done|].
      apply avoids_app; [repeat split; discriminate|].
      apply strftime_compact_avoids. by right. }
  rewrite append_assoc. change ("_" +:+ ?s) with (String "_" s).
  rewrite str_split_sep by done.
  rewrite str_split_none by (apply strftime_compact_avoids; by left).
  rewrite bind_run. cbn [list_index lookup list_lookup mret M_ret].
  by apply strptime_strftime_compact.
Qed.

Lemma scan_file_date_IndexError name w :
  avoids "_" name →
  scan_file_date name w = (w, Raise (Exn "IndexError" "list index out of range")).
Proof.
  intros Hname. unfold scan_file_date, str_replace.
  by rewrite str_split_none by by apply avoids_replace.
Qed.



Lemma view_history_no_scans_run w :
  files w = ∅ →
  view_history_listing w =
  (emit_all [Print banner_line; Print history_header; Print no_scans_line] w, Return None).
Proof.
  intros He. destruct w as [[fs|] con clk cr ent er dsk du pg mx]; [|done].
  cbn in He. subst fs.
  unfold view_history_listing.
  rewrite bind_run. change (banner ?w) with (emit (Print banner_line) w, Return ()).
  cbv beta iota.
  rewrite bind_run. change (print ?l ?w) with (emit (Print l) w, Return ()).
  cbv beta iota.
  rewrite bind_run. cbn [os_path_exists_scans emit scans_dir].
  change (bool_decide (is_Some (Some ∅))) with true. cbv iota.
  rewrite bind_run. cbn [os_listdir_scans emit scans_dir negb orb].
  rewrite map_to_list_empty. reflexivity.
Qed.



(** ** The selection *)

Lemma view_history_select_input input display scans w w2 line :
  input "Selection: " (emit (Print select_prompt) w) = (w2, Return line) →
  view_history_select input display scans w =
  (if String.prefix "s" (str_strip line) && (1 <? String.length (str_strip line)) then
     try_except_ValueError
       (n ← py_int (str_tail (str_strip line));
        if (0 <=? n - 1)%Z && (n - 1 <? Z.of_nat (length scans))%Z then
          scan ← list_index scans (Z.to_nat (n - 1));
          display scan
        else print_colored "RED" "Invalid scan index selected.")
       (print_colored "RED" "Invalid selection format.")
   else mret ()) w2.
Proof.
  intros Hin. unfold view_history_select.
  rewrite bind_run. change (print ?l ?w0) with (emit (Print l) w0, Return ()).
  cbv beta iota. unfold select_prompt in Hin. by rewrite bind_run, Hin.
Qed.

Lemma selects_s line rest :
  str_strip line = String "s" rest → rest ≠ "" →
  String.prefix "s" (str_strip line) && (1 <? String.length (str_strip line)) = true ∧
  str_tail (str_strip line) = rest.
Proof. intros -> Hrest. by destruct rest. Qed.

Lemma int_result_nonempty rest k : int_result rest = inl k → rest ≠ "".
Proof. by intros H ->. Qed.

(** ** Reports stored under names the listing can date *)







(** * The claims *)

(** C1 (the code departs from it).  On the url [http://example.com], in a
    world without a [scans] directory, [scan_website] stops with
    [AttributeError] after two printed lines: nothing has slept, no finding
    exists and no file has been written. *)
Theorem scan_website_example_stops :
  let run := scan_website "http://example.com" quiet_world in
  raised run.2 = Some "AttributeError" ∧
  console run.1 = [Print banner_line; Print (start_line "http://example.com")] ∧
  entropy_reads run.1 = 0 ∧
  scans_dir run.1 = None.
Proof. repeat split. Qed.

(** C2.  For every url, [scan_website url] raises [AttributeError] at the
    first progress message: [ColorPrinter] defines [RESET], [GREEN], [RED]
    and [YELLOW] only, so reading [ColorPrinter.BLUE] fails.  Only the banner
    and the starting line have been printed by then; no step of the scan has
    slept, the random generator has not been consulted, [save_scan] has not
    started and the directory [scans] is untouched. *)
Theorem scan_website_raises_AttributeError (url : string) (w : World) :
  ColorPrinter.*1 = ["RESET"; "GREEN"; "RED"; "YELLOW"] ∧
  (scan_website url w).2 = Raise blue_error ∧
  new_events (scan_website url) w = [Print banner_line; Print (start_line url)] ∧
  entropy_reads (scan_website url w).1 = entropy_reads w ∧
  disk_uses (scan_website url w).1 = disk_uses w ∧
  scans_dir (scan_website url w).1 = scans_dir w.
Proof.
  repeat split; try reflexivity.
  apply new_events_app. etrans; [|apply snoc_app]. reflexivity.
Qed.

(** C3 (as amended).  The name [save_scan] gives a report is made of the
    second of the save and of nothing else.  The names of two reports are
    ordered like the seconds of their saves; saved in different seconds, both
    reports are kept under different names; saved within one second, they get
    the same name and the second report replaces the first. *)
Theorem save_scan_names_by_second (w : World) (d1 d2 : ScanRecord) :
  valid_datetime (now_at w 0) → valid_datetime (now_at w 1) → disk_sound w 2 →
  String.compare (scan_filename (now_at w 0)) (scan_filename (now_at w 1)) =
    second_compare (now_at w 0) (now_at w 1) ∧
  (¬ same_second (now_at w 0) (now_at w 1) →
   scan_filename (now_at w 0) ≠ scan_filename (now_at w 1) ∧
   files (save_all [d1; d2] w).1 !! scan_filename (now_at w 0) =
     Some (Json.dumps (json_of_scan d1)) ∧
   files (save_all [d1; d2] w).1 !! scan_filename (now_at w 1) =
     Some (Json.dumps (json_of_scan d2))) ∧
  (same_second (now_at w 0) (now_at w 1) →
   scan_filename (now_at w 0) = scan_filename (now_at w 1) ∧
   files (save_all [d1; d2] w).1 =
     <[scan_filename (now_at w 1) := Json.dumps (json_of_scan d2)]> (files w)).
Proof.
  intros Hv0 Hv1 Hdisk.
  assert (save_failure w = None) as Hok0
    by (apply healthy_no_failure, (Hdisk 0); lia).
  assert (save_failure (save_world d1 w) = None) as Hok1
    by (apply healthy_no_failure, (save_world_disk_sound d1 w 1 Hdisk 0); lia).
  pose proof (scan_filename_compare _ _ Hv0 Hv1) as Hcmp.
  rewrite save_all_eq. cbn [fst foldl].
  rewrite (save_world_files d2), (save_world_files d1), save_world_now by done.
  split; [done|]. split.
  - unfold same_second. intros Hdiff.
    assert (scan_filename (now_at w 0) ≠ scan_filename (now_at w 1)) as Hne.
    { intros Heq. rewrite Heq, compare_refl in Hcmp. done. }
    split; [done|]. by rewrite lookup_insert_ne, !lookup_insert_eq.
  - intros Hsame%same_second_filename. split; [done|].
    by rewrite Hsame, insert_insert_eq.
Qed.

Lemma save_scan_names_by_second_witness :
  String.compare (scan_filename (now_at ticking_world 0))
                 (scan_filename (now_at ticking_world 1)) = Lt ∧
  files (save_all [report_a; report_b] ticking_world).1 !! "scan_20240315_120001.json" =
    Some (Json.dumps (json_of_scan report_b)).
Proof.
  assert (disk_sound ticking_world 2) as Hdisk by (intros i _; reflexivity).
  pose proof (save_scan_names_by_second ticking_world report_a report_b
                ltac:(vm_compute; lia) ltac:(vm_compute; lia) Hdisk) as (H1 & H2 & _).
  split; [exact H1|]. apply H2. discriminate.
Defined.

(** C3 (as stated) fails: two different instants of the same second give two
    reports the same name, and after both saves the store holds one file, with
    the second report. *)
Lemma same_second_collision :
  datetime_compare (now_at burst_world 0) (now_at burst_world 1) = Lt ∧
  scan_filename (now_at burst_world 0) = scan_filename (now_at burst_world 1) ∧
  map_to_list (files (save_all [report_a; report_b] burst_world).1) =
    [("scan_20240315_120000.json", Json.dumps (json_of_scan report_b))] ∧
  Json.dumps (json_of_scan report_a) ≠ Json.dumps (json_of_scan report_b).
Proof. repeat split. vm_compute. discriminate. Qed.

(** C4.  When the saving of a completed scan fails, whatever the step that
    fails, [save_scan] catches the error, reports it on the last line it
    prints and returns; [scan_website] (from the generation of the findings
    on) then returns the completed record, the very one it handed to
    [save_scan]. *)
Theorem save_failure_keeps_report (r : ScanRecord) (w : World) (msg : string) :
  save_failure w = Some msg →
  (save_scan r w).2 = Return () ∧
  last (console (save_scan r w).1) = Some (Print (failure_line msg)) ∧
  (scan_website_findings r w).2 = Return (add_findings r (drawn w)) ∧
  last (console (scan_website_findings r w).1) = Some (Print (failure_line msg)).
Proof.
  intros Hfail. repeat split.
  - by rewrite save_scan_eq.
  - rewrite save_scan_eq. cbn [fst save_world console]. unfold save_events.
    by rewrite Hfail, last_snoc.
  - by rewrite scan_website_findings_eq.
  - rewrite scan_website_findings_console. unfold save_events. rewrite Hfail.
    by rewrite !app_assoc, last_snoc.
Qed.

Lemma save_failure_keeps_report_witness :
  save_failure full_disk_world = Some "[Errno 28] No space left on device" ∧
  (scan_website_findings report_a full_disk_world).2 =
    Return (add_findings report_a 4) ∧
  last (console (scan_website_findings report_a full_disk_world).1) =
    Some (Print (failure_line "[Errno 28] No space left on device")).
Proof.
  pose proof (save_failure_keeps_report report_a full_disk_world
                "[Errno 28] No space left on device" eq_refl) as (_ & _ & H3 & H4).
  split; [reflexivity|]. split; [exact H3|exact H4].
Defined.

(** C5 (as amended).  [scan_website] does not validate its target and knows
    no [InvalidTarget] error.  For every string, well formed or not, it
    prints the banner and the starting line that quotes the string, reads the
    clock once and stops with the [AttributeError] of the first progress
    message: the string shows in that one line and has no other influence,
    the outcome and the rest of the state are those of any other string.  No
    step sleeps, no finding is drawn and nothing is saved. *)
Theorem scan_website_accepts_any_target (target other : string) (w : World) :
  scan_website target w =
    (tick_clock (emit_all [Print banner_line; Print (start_line target)] w),
     Raise blue_error) ∧
  (scan_website target w).2 = (scan_website other w).2.
Proof.
  split; [|reflexivity].
  apply injective_projections; [|reflexivity].
  apply world_eq; reflexivity.
Qed.

(** C5 (as stated) fails: on the malformed target [not a url] the scan does
    not fail fast with [InvalidTarget]; it starts, prints the starting line
    with the target in it, and stops with [AttributeError] as it does for
    every target. *)
Lemma malformed_target_counterexample :
  raised (scan_website "not a url" quiet_world).2 = Some "AttributeError" ∧
  raised (scan_website "not a url" quiet_world).2 ≠ Some "InvalidTarget" ∧
  console (scan_website "not a url" quiet_world).1 =
    [Print banner_line; Print (start_line "not a url")].
Proof. repeat split. discriminate. Qed.

(** C6.  A record that [save_scan] saves without failure is read back by the
    loading step of [display_scan_details] from the file of its name:
    [json.load] returns the value [json.dump] was given. *)
Theorem save_then_load_roundtrip (d : ScanRecord) (w : World) :
  save_failure w = None →
  (display_scan_details_load (scan_filename (now_at w 0)) (save_scan d w).1).2 =
  Return (json_of_scan d).
Proof.
  intros Hok. rewrite save_scan_eq. cbn [fst].
  unfold display_scan_details_load. rewrite bind_run. unfold read_text.
  rewrite save_world_files, lookup_insert_eq by done.
  unfold of_outcome. cbn [snd]. apply JsonFacts.loads_dumps, json_of_scan_wf.
Qed.

Lemma save_then_load_roundtrip_witness :
  save_failure quiet_world = None ∧
  (display_scan_details_load "scan_20240315_120000.json"
     (save_scan report_b quiet_world).1).2 = Return (json_of_scan report_b).
Proof.
  split; [reflexivity|].
  exact (save_then_load_roundtrip report_b quiet_world eq_refl).
Defined.






(** C9.  The date parsing of [view_history] fails on every name [save_scan]
    gives: splitting the name at the underscores, the element of index 1 is
    the date alone, eight characters, and [strptime] with the format
    [%Y%m%d%H%M%S] raises [ValueError] on it.  Hence [view_history] raises as
    soon as such a name is among the ten it goes through, and with
    [ValueError] when the directory holds saved scans only. *)
Theorem saved_scan_breaks_history (w : World) (fs : gmap string string)
    (t : datetime) (select_scan : list string → M unit) :
  scans_dir w = Some fs →
  scan_filename t ∈ take 10 (history_scans (map_to_list fs).*1) →
  str_split "_" (str_replace ".json" "" (scan_filename t)) !! 1 = Some (strftime_date t) ∧
  String.length (strftime_date t) = 8 ∧
  (∀ w0, (scan_file_date (scan_filename t) w0).2 =
         Raise (time_data_error (strftime_date t))) ∧
  is_raise (view_history select_scan w).2 ∧
  (only_saved_scans w → raised (view_history select_scan w).2 = Some "ValueError").
Proof.
  intros Hdir Hin. split; [by rewrite scan_filename_split|]. split; [done|].
  split; [intros w0; by rewrite scan_file_date_raises|].
  unfold view_history. rewrite bind_run. split.
  - destruct (view_history_listing_raises w fs t Hdir Hin) as [e He].
    destruct (view_history_listing w) as [w' o]. cbn in He. subst o. by eexists.
  - intros Hall. unfold only_saved_scans, files in Hall. rewrite Hdir in Hall.
    assert (fs ≠ ∅) as Hne.
    { intros ->. rewrite map_to_list_empty in Hin. by apply elem_of_nil in Hin. }
    pose proof (view_history_listing_ValueError w fs Hdir Hne Hall) as He.
    destruct (view_history_listing w) as [w' [r|e]]; [done|exact He].
Qed.

Lemma saved_scan_breaks_history_witness :
  raised (view_history (λ _, mret ()) (save_scan report_a quiet_world).1).2 =
  Some "ValueError".
Proof.
  refine (proj2 (proj2 (proj2 (proj2
    (saved_scan_breaks_history (save_scan report_a quiet_world).1
       (files (save_scan report_a quiet_world).1) noon (λ _, mret ()) eq_refl _)))) _).
  - vm_compute. left.
  - apply save_scan_only_saved_scans. intros name [v Hv]. done.
Defined.

(** C10.  From the generation of the findings on, [scan_website] returns the
    record extended by between one and five findings, each of type
    [SQL Injection] and severity [High], and the line of the branch
    [No vulnerabilities detected] is never printed. *)
Theorem findings_between_one_and_five (r : ScanRecord) (w : World) :
  ∃ r' new,
    (scan_website_findings r w).2 = Return r' ∧
    url r' = url r ∧ scan_time r' = scan_time r ∧
    findings r' = findings r ++ new ∧
    1 ≤ length new ≤ 5 ∧
    Forall (λ f, f_type f = "SQL Injection" ∧ f_severity f = "High") new ∧
    Print no_vulnerabilities_line ∉ new_events (scan_website_findings r) w.
Proof.
  exists (add_findings r (drawn w)), (replicate (drawn w) sql_injection).
  rewrite scan_website_findings_eq. repeat split.
  - rewrite length_replicate. unfold drawn. lia.
  - rewrite length_replicate. unfold drawn.
    pose proof (Nat.mod_upper_bound (entropy w (entropy_reads w)) 5). lia.
  - apply Forall_replicate. done.
  - erewrite new_events_app by apply scan_website_findings_console.
    rewrite not_elem_of_app.
    split; [apply findings_events_quiet|apply save_events_quiet].
Qed.

(** * Further properties *)

(** ** The functions of the prompts on examples *)

Example int_examples :
  int_literal " 12 " = Some 12%Z ∧ int_literal "-3" = Some (-3)%Z ∧
  int_literal "1_000" = Some 1000%Z ∧ int_literal "1__0" = None ∧
  int_literal "_1" = None ∧ int_literal "1_" = None ∧ int_literal "" = None ∧
  int_literal "+ 1" = None ∧ int_literal "007" = Some 7%Z ∧ int_literal "1 2" = None ∧
  int_literal "-" = None ∧ int_literal "3x" = None.
Proof. repeat split. Qed.

Example int_result_examples :
  int_result "42" = inl 42%Z ∧
  int_result "4 2" = inr "invalid literal for int() with base 10: '4 2'" ∧
  int_result (str_repeat "0" 4300) = inl 0%Z.
Proof. repeat split. Qed.

Example repr_examples :
  py_repr "abc" = "'abc'" ∧ py_repr "it's" = String dquote ("it's" +:+ String dquote "") ∧
  py_repr (String "010" "a\") = "'\na\\'".
Proof. repeat split. Qed.

Example strip_examples :
  str_strip "  s2 " = "s2" ∧ str_strip "" = "" ∧ str_strip "   " = "" ∧ str_strip "a b" = "a b".
Proof. repeat split. Qed.

(** ** More on the text of a report *)

Module JsonText.
Import Json JsonAux JsonFacts.

Lemma scanstring_cons c rest :
  scanstring (String c rest) =
  if Ascii.eqb c dquote then Some ("", rest)
  else if Ascii.eqb c "\" then
    match rest with
    | "" => None
    | String e rest1 =>
        if Ascii.eqb e "u" then
          match rest1 with
          | String h1 (String h2 (String h3 (String h4 rest2))) =>
              match decode_uXXXX h1 h2 h3 h4 with
              | Some n =>
                  if n <? 256 then cons_char (ascii_of_nat n) (scanstring rest2)
                  else None
              | None => None
              end
          | _ => None
          end
        else
          match BACKSLASH e with
          | Some ch => cons_char ch (scanstring rest1)
          | None => None
          end
    end
  else if nat_of_ascii c <? 32 then None
  else cons_char c (scanstring rest).
Proof. reflexivity. Qed.

Lemma cons_char_Some c o str r :
  cons_char c o = Some (str, r) → ∃ str', o = Some (str', r) ∧ str = String c str'.
Proof. destruct o as [[??]|]; cbn; [|done]. intros [= <- <-]. eauto. Qed.

(** What [scanstring] has read does not depend on what follows the closing
    quote. *)
Lemma scanstring_app x n : ∀ s str r,
  String.length s ≤ n →
  scanstring s = Some (str, r) → scanstring (s +:+ x) = Some (str, r +:+ x).
Proof.
  induction n as [|n IH]; intros [|c rest] str r Hlen H; try done.
  { cbn in Hlen. lia. }
  cbn [String.length] in Hlen.
  rewrite append_cons, scanstring_cons. rewrite scanstring_cons in H.
  destruct (Ascii.eqb c dquote); [by simplify_eq|].
  destruct (Ascii.eqb c "\").
  - destruct rest as [|e rest1]; [done|]. rewrite append_cons.
    cbn [String.length] in Hlen.
    destruct (Ascii.eqb e "u").
    + destruct rest1 as [|h1 [|h2 [|h3 [|h4 rest2]]]]; try done.
      rewrite !append_cons. cbn [String.length] in Hlen.
      destruct (decode_uXXXX h1 h2 h3 h4) as [k|]; [|done].
      destruct (k <? 256); [|done].
      apply cons_char_Some in H as (str' & H & ->).
      by rewrite (IH rest2 _ _ ltac:(lia) H).
    + destruct (BACKSLASH e); [|done].
      apply cons_char_Some in H as (str' & H & ->).
      by rewrite (IH rest1 _ _ ltac:(lia) H).
  - destruct (nat_of_ascii c <? 32); [done|].
    apply cons_char_Some in H as (str' & H & ->).
    by rewrite (IH rest _ _ ltac:(lia) H).
Qed.

Lemma skip_ws_app s x :
  skip_ws s ≠ "" → skip_ws (s +:+ x) = skip_ws s +:+ x.
Proof.
  induction s as [|a s IH]; [done|]. rewrite append_cons. cbn [skip_ws].
  by destruct (is_ws a).
Qed.

Lemma bind_Some {A B} (o : option A) (f : A → option B) b :
  o ≫= f = Some b → ∃ a, o = Some a ∧ f a = Some b.
Proof. destruct o; cbn; eauto. done. Qed.

(** The three functions of the decoder, with the tests on the next character
    written out. *)
Lemma scan_once_step fuel c rest :
  scan_once (S fuel) (String c rest) =
  if Ascii.eqb c dquote then '(str, r) ← scanstring rest; Some (JStr str, r)
  else if Ascii.eqb c "[" then
    match skip_ws rest with
    | "" => None
    | String a t =>
        if Ascii.eqb a "]" then Some (JList [], t)
        else '(vs, r) ← array_items fuel (String a t); Some (JList vs, r)
    end
  else if Ascii.eqb c "{" then
    match skip_ws rest with
    | "" => None
    | String a t =>
        if Ascii.eqb a "}" then Some (JDict [], t)
        else '(ps, r) ← object_items fuel (String a t);
             Some (JDict (dict_of_pairs ps), r)
    end
  else None.
Proof.
  rewrite scan_once_S.
  destruct (Ascii.eqb c dquote); [done|].
  destruct (Ascii.eqb c "["), (Ascii.eqb c "{"); try done;
    (destruct (skip_ws rest) as [|a t]; [by destruct fuel as [|[|?]]|]);
    by destruct a as [[] [] [] [] [] [] [] []].
Qed.

Lemma array_items_step fuel s :
  array_items (S fuel) s =
  '(v, r) ← scan_once fuel s;
  match skip_ws r with
  | "" => None
  | String a t =>
      if Ascii.eqb a "]" then Some ([v], t)
      else if Ascii.eqb a "," then
        '(vs, r'') ← array_items fuel (skip_ws t); Some (v :: vs, r'')
      else None
  end.
Proof.
  rewrite array_items_S. destruct (scan_once fuel s) as [[v r]|]; [|done]. cbn.
  destruct (skip_ws r) as [|a t]; [done|].
  by destruct a as [[] [] [] [] [] [] [] []].
Qed.

Lemma object_items_step fuel s :
  object_items (S fuel) s =
  match s with
  | "" => None
  | String c rest =>
      if Ascii.eqb c dquote then
        '(k, r) ← scanstring rest;
        match skip_ws r with
        | "" => None
        | String a r1 =>
            if Ascii.eqb a ":" then
              '(v, r2) ← scan_once fuel (skip_ws r1);
              match skip_ws r2 with
              | "" => None
              | String b t =>
                  if Ascii.eqb b "}" then Some ([(k, v)], t)
                  else if Ascii.eqb b "," then
                    '(ps, r'') ← object_items fuel (skip_ws t);
                    Some ((k, v) :: ps, r'')
                  else None
              end
            else None
        end
      else None
  end.
Proof.
  destruct s as [|c rest]; [done|]. cbn [object_items].
  destruct (Ascii.eqb c dquote); [|done].
  destruct (scanstring rest) as [[k r]|]; [|done]. cbn.
  destruct (skip_ws r) as [|a r1]; [done|].
  destruct a as [[] [] [] [] [] [] [] []]; try done.
  cbn. destruct (scan_once fuel (skip_ws r1)) as [[v r2]|]; [|done]. cbn.
  destruct (skip_ws r2) as [|b t]; [done|].
  by destruct b as [[] [] [] [] [] [] [] []].
Qed.


Lemma skip_ws_cons_app s x a t :
  skip_ws s = String a t → skip_ws (s +:+ x) = String a (t +:+ x).
Proof. intros H. rewrite skip_ws_app by (by rewrite H). by rewrite H. Qed.

Lemma scan_once_nil fuel : scan_once fuel "" = None.
Proof. by destruct fuel. Qed.
Lemma array_items_nil fuel : array_items fuel "" = None.
Proof. destruct fuel as [|fuel]; [done|]. by rewrite array_items_step, scan_once_nil. Qed.
Lemma object_items_nil fuel : object_items fuel "" = None.
Proof. by destruct fuel. Qed.

(** What the decoder has read does not depend on what follows the value. *)
Lemma scan_once_app x fuel :
  (∀ s v r, scan_once fuel s = Some (v, r) →
            scan_once fuel (s +:+ x) = Some (v, r +:+ x)) ∧
  (∀ s vs r, array_items fuel s = Some (vs, r) →
             array_items fuel (s +:+ x) = Some (vs, r +:+ x)) ∧
  (∀ s ps r, object_items fuel s = Some (ps, r) →
             object_items fuel (s +:+ x) = Some (ps, r +:+ x)).
Proof.
  induction fuel as [|fuel (IHv & IHa & IHo)]; [done|]. split; [|split].
  - intros [|c rest] v r H; [done|]. rewrite append_cons, scan_once_step.
    rewrite scan_once_step in H.
    destruct (Ascii.eqb c dquote).
    { apply bind_Some in H as ([str r'] & Hs & [= <- <-]).
      by rewrite (scanstring_app x _ _ _ _ (le_n _) Hs). }
    destruct (Ascii.eqb c "[").
    { destruct (skip_ws rest) as [|a t] eqn:Hws; [done|].
      rewrite (skip_ws_cons_app _ x _ _ Hws).
      destruct (Ascii.eqb a "]"); [by simplify_eq|].
      apply bind_Some in H as ([vs r'] & Hs & [= <- <-]).
      by rewrite <- append_cons, (IHa _ _ _ Hs). }
    destruct (Ascii.eqb c "{"); [|done].
    destruct (skip_ws rest) as [|a t] eqn:Hws; [done|].
    rewrite (skip_ws_cons_app _ x _ _ Hws).
    destruct (Ascii.eqb a "}"); [by simplify_eq|].
    apply bind_Some in H as ([vs r'] & Hs & [= <- <-]).
    by rewrite <- append_cons, (IHo _ _ _ Hs).
  - intros s vs r H. rewrite array_items_step in H |- *.
    apply bind_Some in H as ([v r'] & Hs & H). rewrite (IHv _ _ _ Hs). cbn.
    destruct (skip_ws r') as [|a t] eqn:Hws; [done|].
    rewrite (skip_ws_cons_app _ x _ _ Hws).
    destruct (Ascii.eqb a "]"); [by simplify_eq|].
    destruct (Ascii.eqb a ","); [|done].
    apply bind_Some in H as ([vs' r''] & Hs' & [= <- <-]).
    destruct (skip_ws t) as [|b u] eqn:Hwt; [by rewrite array_items_nil in Hs'|].
    rewrite (skip_ws_cons_app _ x _ _ Hwt), <- append_cons.
    by rewrite (IHa _ _ _ Hs').
  - intros [|c rest] ps r H; [done|]. rewrite append_cons, object_items_step.
    rewrite object_items_step in H.
    destruct (Ascii.eqb c dquote); [|done].
    apply bind_Some in H as ([k r0] & Hs & H).
    rewrite (scanstring_app x _ _ _ _ (le_n _) Hs). cbn.
    destruct (skip_ws r0) as [|a r1] eqn:Hw0; [done|].
    rewrite (skip_ws_cons_app _ x _ _ Hw0).
    destruct (Ascii.eqb a ":"); [|done].
    apply bind_Some in H as ([v r2] & Hv & H).
    destruct (skip_ws r1) as [|b u] eqn:Hw1; [by rewrite scan_once_nil in Hv|].
    rewrite (skip_ws_cons_app _ x _ _ Hw1), <- append_cons, (IHv _ _ _ Hv). cbn.
    destruct (skip_ws r2) as [|b' t] eqn:Hw2; [done|].
    rewrite (skip_ws_cons_app _ x _ _ Hw2).
    destruct (Ascii.eqb b' "}"); [by simplify_eq|].
    destruct (Ascii.eqb b' ","); [|done].
    apply bind_Some in H as ([ps' r''] & Hs' & [= <- <-]).
    destruct (skip_ws t) as [|b'' u'] eqn:Hwt; [by rewrite object_items_nil in Hs'|].
    rewrite (skip_ws_cons_app _ x _ _ Hwt), <- append_cons.
    by rewrite (IHo _ _ _ Hs').
Qed.

(** More fuel does not change what the decoder reads. *)
Lemma scan_once_fuel_S fuel :
  (∀ s res, scan_once fuel s = Some res → scan_once (S fuel) s = Some res) ∧
  (∀ s res, array_items fuel s = Some res → array_items (S fuel) s = Some res) ∧
  (∀ s res, object_items fuel s = Some res → object_items (S fuel) s = Some res).
Proof.
  induction fuel as [|fuel (IHv & IHa & IHo)]; [done|]. split; [|split].
  - intros [|c rest] res H; [done|]. rewrite scan_once_step in H |- *.
    destruct (Ascii.eqb c dquote); [done|].
    destruct (Ascii.eqb c "[").
    { destruct (skip_ws rest) as [|a t]; [done|].
      destruct (Ascii.eqb a "]"); [done|].
      apply bind_Some in H as ([vs r'] & Hs & <-). by rewrite (IHa _ _ Hs). }
    destruct (Ascii.eqb c "{"); [|done].
    destruct (skip_ws rest) as [|a t]; [done|].
    destruct (Ascii.eqb a "}"); [done|].
    apply bind_Some in H as ([vs r'] & Hs & <-). by rewrite (IHo _ _ Hs).
  - intros s res H. rewrite array_items_step in H |- *.
    apply bind_Some in H as ([v r'] & Hs & H). rewrite (IHv _ _ Hs). cbn [mbind option_bind option_ret].
    destruct (skip_ws r') as [|a t]; [done|].
    destruct (Ascii.eqb a "]"); [done|].
    destruct (Ascii.eqb a ","); [|done].
    apply bind_Some in H as ([vs' r''] & Hs' & <-). by rewrite (IHa _ _ Hs').
  - intros [|c rest] res H; [done|]. rewrite object_items_step in H |- *.
    destruct (Ascii.eqb c dquote); [|done].
    apply bind_Some in H as ([k r0] & Hs & H). rewrite Hs. cbn [mbind option_bind option_ret].
    destruct (skip_ws r0) as [|a r1]; [done|].
    destruct (Ascii.eqb a ":"); [|done].
    apply bind_Some in H as ([v r2] & Hv & H). rewrite (IHv _ _ Hv). cbn [mbind option_bind option_ret].
    destruct (skip_ws r2) as [|b' t]; [done|].
    destruct (Ascii.eqb b' "}"); [done|].
    destruct (Ascii.eqb b' ","); [|done].
    apply bind_Some in H as ([ps' r''] & Hs' & <-). by rewrite (IHo _ _ Hs').
Qed.

Lemma scan_once_fuel_le fuel fuel' s res :
  fuel ≤ fuel' → scan_once fuel s = Some res → scan_once fuel' s = Some res.
Proof.
  induction 1 as [|fuel' _ IH]; [done|]. intros H.
  by apply scan_once_fuel_S, IH.
Qed.

(** A strict prefix of an encoded value is not the text of any value. *)
Lemma loads_prefix v p x :
  json_wf v → dumps v = p +:+ x → x ≠ "" → raised (loads p) = Some "JSONDecodeError".
Proof.
  intros Hwf Heq Hx. unfold loads.
  destruct (scan_once (String.length p) (skip_ws p)) as [[v' r]|] eqn:H; [|done].
  case_decide as Hr; [exfalso|done].
  destruct p as [|c p']; [by rewrite scan_once_nil in H|].
  assert (skip_ws (String c p') = String c p') as Hws.
  { destruct (encode_opens 0 v) as (c' & r' & Hc & Hopen). unfold dumps in Heq.
    rewrite Hc, append_cons in Heq. injection Heq as -> _.
    by destruct Hopen as [-> | [-> | ->]]. }
  rewrite Hws in H.
  apply (scan_once_fuel_le _ (String.length (dumps v))) in H.
  2:{ rewrite Heq, length_append. lia. }
  apply (scan_once_app x) in H. rewrite <- Heq in H.
  pose proof (scan_once_encode v Hwf 0 (String.length (dumps v)) "" (le_n _)) as Hv.
  rewrite append_nil_r in Hv. unfold dumps in H, Hv. rewrite Hv in H.
  injection H as _ Hnil. destruct r; [|done]. by destruct x.
Qed.

Lemma substring_prefix n : ∀ s,
  ∃ x, s = String.substring 0 n s +:+ x ∧ (n < String.length s → x ≠ "").
Proof.
  induction n as [|n IH]; intros [|c s].
  - exists "". split; [done|]. cbn. lia.
  - exists (String c s). by split.
  - exists "". split; [done|]. cbn. lia.
  - destruct (IH s) as (x & Hs & Hx). exists x. split.
    + cbn [String.substring]. by rewrite append_cons, <- Hs.
    + cbn. intros. apply Hx. lia.
Qed.

Lemma plain_text_app a b : plain_text (a +:+ b) = plain_text a && plain_text b.
Proof.
  induction a as [|c a IH]; [done|]. rewrite append_cons. cbn [plain_text].
  by rewrite IH, andb_assoc.
Qed.

Lemma plain_escape_char c : plain_text (escape_char c) = true.
Proof. by destruct c as [[] [] [] [] [] [] [] []]. Qed.

Lemma plain_escape s : plain_text (escape s) = true.
Proof.
  induction s as [|c s IH]; [done|]. cbn [escape].
  by rewrite plain_text_app, plain_escape_char, IH.
Qed.

Lemma plain_encode_str s : plain_text (encode_str s) = true.
Proof. unfold encode_str. cbn [plain_text]. by rewrite plain_text_app, plain_escape. Qed.

Lemma plain_spaces n : plain_text (spaces n) = true.
Proof. induction n; [done|]. done. Qed.

Lemma plain_newline_indent level : plain_text (newline_indent level) = true.
Proof. unfold newline_indent. cbn [plain_text]. by rewrite plain_spaces. Qed.

Lemma plain_encode_more_list level xs :
  Forall (λ v, ∀ level, plain_text (encode level v) = true) xs →
  plain_text (encode_more_list level xs) = true.
Proof.
  induction 1 as [|y ys Hy _ IH]; cbn [encode_more_list].
  - by rewrite plain_text_app, plain_newline_indent.
  - by rewrite !plain_text_app, plain_newline_indent, Hy, IH.
Qed.

Lemma plain_encode_more_dict level xs :
  Forall (λ kv, ∀ level, plain_text (encode level kv.2) = true) xs →
  plain_text (encode_more_dict level xs) = true.
Proof.
  induction 1 as [|[k y] ys Hy _ IH]; cbn [encode_more_dict].
  - by rewrite plain_text_app, plain_newline_indent.
  - cbn in Hy. by rewrite !plain_text_app, plain_newline_indent, plain_encode_str, Hy, IH.
Qed.

Lemma plain_encode v : ∀ level, plain_text (encode level v) = true.
Proof.
  induction v as [s|l IH|items IH] using json_nested_ind; intros level.
  - apply plain_encode_str.
  - destruct IH as [|x xs Hx Hxs]; [done|].
    by rewrite encode_list_cons, !plain_text_app, plain_newline_indent, Hx,
      plain_encode_more_list.
  - destruct IH as [|[k x] xs Hx Hxs]; [done|]. cbn in Hx.
    by rewrite encode_dict_cons, !plain_text_app, plain_newline_indent,
      plain_encode_str, Hx, plain_encode_more_dict.
Qed.

Global Instance json_of_finding_inj : Inj (=) (=) json_of_finding.
Proof. intros [] []. by intros [= -> -> ->]. Qed.

Global Instance json_of_scan_inj : Inj (=) (=) json_of_scan.
Proof.
  intros [u1 t1 fs1] [u2 t2 fs2]. intros [= -> -> H]. f_equal.
  by apply (inj (fmap json_of_finding)).
Qed.

End JsonText.

Lemma view_history_listing_head w fs name others e :
  scans_dir w = Some fs → history_scans (map_to_list fs).*1 = name :: others →
  (∀ w0, scan_file_date name w0 = (w0, Raise e)) →
  view_history_listing w = (emit_all [Print banner_line; Print history_header] w, Raise e).
Proof.
  intros Hdir Hs Hdate.
  assert (fs ≠ ∅) as Hne.
  { intros ->. rewrite map_to_list_empty in Hs. done. }
  rewrite (view_history_listing_loop w fs) by done. rewrite bind_run, Hs.
  cbn [take enumerate length seq zip zip_with for_each fst].
  rewrite bind_run. unfold list_scan at 1. by rewrite bind_run, Hdate.
Qed.

(** X1.  [save_scan] writes no file but the one it names: every other file of
    [scans] holds afterwards what it held before, whether the save succeeds
    or fails. *)
Theorem save_scan_keeps_other_files (d : ScanRecord) (w : World) (name : string) :
  name ≠ scan_filename (now_at w 0) →
  files (save_scan d w).1 !! name = files w !! name.
Proof.
  intros Hne. rewrite save_scan_eq. cbn [fst].
  destruct (save_world_files_cases d w) as [->|[text ->]]; [done|].
  by rewrite lookup_insert_ne.
Qed.

Lemma save_scan_keeps_other_files_witness :
  files (save_scan report_a notes_world).1 !! "notes.txt" = Some "remember".
Proof.
  exact (save_scan_keeps_other_files report_a notes_world "notes.txt" ltac:(discriminate)).
Defined.

(** X2.  Reports saved one after the other in increasing seconds on a sound
    disk are all kept: each one is read back, by the loading step of
    [display_scan_details], from the file named after its own second. *)
Theorem every_report_is_kept (ds : list ScanRecord) (w : World) (i : nat) (d : ScanRecord) :
  disk_sound w (length ds) → clock_advances w (length ds) → ds !! i = Some d →
  (display_scan_details_load (scan_filename (now_at w i)) (save_all ds w).1).2 =
  Return (json_of_scan d).
Proof.
  intros Hdisk Hclock Hi.
  unfold display_scan_details_load. rewrite bind_run. unfold read_text.
  rewrite (save_all_lookup ds w i d) by done.
  unfold of_outcome. cbn [snd]. apply JsonFacts.loads_dumps, json_of_scan_wf.
Qed.

Lemma ticking_world_advances n : n ≤ 60 → clock_advances ticking_world n.
Proof.
  intros Hn. split.
  - intros i Hi. unfold now_at, valid_datetime. cbn. lia.
  - intros i j Hij. unfold second_compare, now_at. cbn. apply Nat.compare_lt_iff. lia.
Qed.

Lemma every_report_is_kept_witness :
  (display_scan_details_load "scan_20240315_120001.json"
     (save_all [report_a; report_b; report_a] ticking_world).1).2 =
  Return (json_of_scan report_b).
Proof.
  apply (every_report_is_kept [report_a; report_b; report_a] ticking_world 1 report_b).
  - intros i _. reflexivity.
  - apply ticking_world_advances. cbn. lia.
  - reflexivity.
Defined.

(** X3.  A sound that cannot be played does not undo a save: when the write
    succeeds and the mixer fails, [save_scan] returns, the file holds the
    whole report, and the console gets the line of the saved file followed by
    a warning. *)
Theorem sound_failure_is_only_a_warning (d : ScanRecord) (w : World) (msg : string) :
  save_failure w = None → HAS_PYGAME w = true → mixer_error w = Some msg →
  (save_scan d w).2 = Return () ∧
  files (save_scan d w).1 !! scan_filename (now_at w 0) = Some (Json.dumps (json_of_scan d)) ∧
  new_events (save_scan d) w =
    [Print (saved_line (now_at w 0)); Print (sound_warning msg)].
Proof.
  intros Hok Hpg Hmx. rewrite save_scan_eq. split; [done|]. split.
  - cbn [fst]. by rewrite save_world_files, lookup_insert_eq.
  - apply new_events_app. rewrite save_scan_eq. cbn [fst save_world console].
    unfold save_events, sound_events. by rewrite Hok, Hpg, Hmx.
Qed.

Lemma sound_failure_is_only_a_warning_witness :
  new_events (save_scan report_a) mute_world =
  [Print (saved_line noon); Print (sound_warning "No available audio device")].
Proof.
  exact (proj2 (proj2 (sound_failure_is_only_a_warning report_a mute_world
                         "No available audio device" eq_refl eq_refl eq_refl))).
Defined.

(** X4.  Without a [scans] directory, or with an empty one, [view_history]
    prints the banner, the header and [No previous scans found.] and returns:
    the selection is never asked for. *)
Theorem view_history_without_scans (select_scan : list string → M unit) (w : World) :
  files w = ∅ →
  view_history select_scan w =
  (emit_all [Print banner_line; Print history_header; Print no_scans_line] w, Return ()).
Proof.
  intros He. unfold view_history. by rewrite bind_run, view_history_no_scans_run.
Qed.

Lemma view_history_without_scans_witness :
  view_history (λ _, raise (Exn "RuntimeError" "asked")) quiet_world =
  (emit_all [Print banner_line; Print history_header; Print no_scans_line] quiet_world,
   Return ()).
Proof. exact (view_history_without_scans _ quiet_world eq_refl). Defined.

(** X5.  A save that fails when the file is opened has already created the
    directory: [scans] exists and is empty afterwards, and [view_history]
    then reports that there are no previous scans. *)
Theorem failed_open_leaves_empty_directory (d : ScanRecord) (w : World) (msg : string)
    (select_scan : list string → M unit) :
  scans_dir w = None →
  makedirs_error (disk w (disk_uses w)) = None →
  open_error (disk w (disk_uses w)) = Some msg →
  scans_dir (save_scan d w).1 = Some ∅ ∧
  (view_history select_scan (save_scan d w).1).2 = Return () ∧
  last (console (view_history select_scan (save_scan d w).1).1) = Some (Print no_scans_line).
Proof.
  intros Hdir Hmk Hop.
  assert (scans_dir (save_scan d w).1 = Some ∅) as Hafter.
  { rewrite save_scan_eq. cbn [fst save_world scans_dir]. unfold save_dir, files.
    by rewrite Hdir, Hmk, Hop. }
  split; [done|].
  unfold view_history.
  rewrite bind_run, view_history_no_scans_run by (unfold files; by rewrite Hafter).
  split; [done|].
  destruct (emit_all_frame [Print banner_line; Print history_header; Print no_scans_line]
              (save_scan d w).1) as (_ & Hc & _).
  change (last (console (emit_all [Print banner_line; Print history_header;
            Print no_scans_line] (save_scan d w).1)) = Some (Print no_scans_line)).
  rewrite Hc.
  change [Print banner_line; Print history_header; Print no_scans_line]
    with ([Print banner_line; Print history_header] ++ [Print no_scans_line]).
  by rewrite app_assoc, last_snoc.
Qed.

Lemma failed_open_leaves_empty_directory_witness :
  scans_dir (save_scan report_a locked_world).1 = Some ∅ ∧
  last (console (view_history (λ _, mret ()) (save_scan report_a locked_world).1).1) =
  Some (Print no_scans_line).
Proof.
  pose proof (failed_open_leaves_empty_directory report_a locked_world
                "[Errno 13] Permission denied" (λ _, mret ()) eq_refl eq_refl eq_refl)
    as (H1 & _ & H4).
  exact (conj H1 H4).
Defined.

(** X6.  A file of [scans] whose name has no underscore stops the history:
    when such a name comes first in the descending order, [view_history]
    prints the banner and the header and raises [IndexError], whatever the
    selection step would do. *)
Theorem history_needs_an_underscore (select_scan : list string → M unit) (w : World)
    (fs : gmap string string) (name : string) (others : list string) :
  scans_dir w = Some fs →
  history_scans (map_to_list fs).*1 = name :: others →
  avoids "_" name →
  view_history select_scan w =
  (emit_all [Print banner_line; Print history_header] w,
   Raise (Exn "IndexError" "list index out of range")).
Proof.
  intros Hdir Hs Hav. unfold view_history. rewrite bind_run.
  rewrite (view_history_listing_head w fs name others
             (Exn "IndexError" "list index out of range")); [done..|].
  intros w0. by apply scan_file_date_IndexError.
Qed.

Lemma history_needs_an_underscore_witness :
  (view_history (λ _, mret ()) notes_world).2 =
  Raise (Exn "IndexError" "list index out of range").
Proof.
  assert (history_scans (map_to_list ({["notes.txt" := "remember"]} : gmap string string)).*1
          = ["notes.txt"]) as Hs.
  { unfold history_scans. rewrite map_to_list_singleton. reflexivity. }
  assert (avoids "_" "notes.txt") as Hav by (repeat split; discriminate).
  exact (f_equal snd (history_needs_an_underscore (λ _, mret ()) notes_world
                        {["notes.txt" := "remember"]} "notes.txt" [] eq_refl Hs Hav)).
Defined.


(** X7.  A name made of a prefix without underscore or dot, one underscore,
    the fourteen digits of a second and [.json] is listed: the loop of
    [view_history] prints its rank, the name and that second, and goes on. *)
Theorem compact_stamp_is_listed (i : nat) (p : string) (t : datetime) (w : World) :
  avoids "_" p → avoids "." p → valid_datetime t →
  list_scan (i, p +:+ "_" +:+ strftime_compact t +:+ ".json") () w =
  (emit (Print (summary_line i (p +:+ "_" +:+ strftime_compact t +:+ ".json")
                  (whole_second t))) w,
   Return ()).
Proof.
  intros Hp Hd Ht. unfold list_scan. rewrite bind_run.
  by rewrite scan_file_date_compact.
Qed.

Lemma compact_stamp_is_listed_witness :
  list_scan (0, "scan_20240315120000.json") () quiet_world =
  (emit (Print "1) Scan ID: scan_20240315120000.json, Date: 2024-03-15 12:00:00")
     quiet_world, Return ()).
Proof.
  assert (avoids "_" "scan") as H1 by (repeat split; discriminate).
  assert (avoids "." "scan") as H2 by (repeat split; discriminate).
  assert (valid_datetime noon) as H3 by (vm_compute; lia).
  exact (compact_stamp_is_listed 0 "scan" noon quiet_world H1 H2 H3).
Defined.



(** X9.  A selection [s<k>] with [k] between one and the number of files, be
    it beyond the ten names shown, calls [display_scan_details] on the
    [k]-th name in descending order, under the handler of [ValueError]. *)
Theorem selection_reaches_every_scan input display scans w w2 line rest k :
  input "Selection: " (emit (Print select_prompt) w) = (w2, Return line) →
  str_strip line = String "s" rest → int_result rest = inl k →
  (1 ≤ k ≤ Z.of_nat (length scans))%Z →
  ∃ name, scans !! Z.to_nat (k - 1) = Some name ∧
    view_history_select input display scans w =
    try_except_ValueError (display name)
      (print_colored "RED" "Invalid selection format.") w2.
Proof.
  intros Hin Hs Hk Hrange.
  destruct (lookup_lt_is_Some_2 scans (Z.to_nat (k - 1)) ltac:(lia)) as [name Hname].
  exists name. split; [done|].
  rewrite (view_history_select_input _ _ _ _ _ _ Hin).
  destruct (selects_s line rest Hs (int_result_nonempty _ _ Hk)) as [-> ->].
  unfold try_except_ValueError, py_int. rewrite Hk, bind_run. cbn [mret M_ret].
  replace ((0 <=? k - 1)%Z && (k - 1 <? Z.of_nat (length scans))%Z) with true
    by (symmetry; apply andb_true_iff; split; [apply Z.leb_le|apply Z.ltb_lt]; lia).
  rewrite bind_run. unfold list_index. rewrite Hname. done.
Qed.

Lemma selection_reaches_every_scan_witness :
  view_history_select (answering " s11 ") show_name eleven_names quiet_world =
  (emit_all [Print select_prompt; Print "a.json"] quiet_world, Return ()).
Proof.
  destruct (selection_reaches_every_scan (answering " s11 ") show_name eleven_names
              quiet_world _ " s11 " "11" 11 eq_refl eq_refl eq_refl)
    as (name & Hname & ->).
  - cbn. lia.
  - injection Hname as <-. reflexivity.
Defined.


(** X10.  A selection [s<k>] whose number is zero, negative or larger than
    the number of files prints [Invalid scan index selected.] and returns:
    a negative index is refused, it does not count from the end. *)
Theorem selection_out_of_range input display scans w w2 line rest k :
  input "Selection: " (emit (Print select_prompt) w) = (w2, Return line) →
  str_strip line = String "s" rest → int_result rest = inl k →
  (k < 1 ∨ Z.of_nat (length scans) < k)%Z →
  view_history_select input display scans w =
  (emit (Print invalid_index_line) w2, Return ()).
Proof.
  intros Hin Hs Hk Hrange.
  rewrite (view_history_select_input _ _ _ _ _ _ Hin).
  destruct (selects_s line rest Hs (int_result_nonempty _ _ Hk)) as [-> ->].
  unfold try_except_ValueError, py_int. rewrite Hk, bind_run. cbn [mret M_ret].
  replace ((0 <=? k - 1)%Z && (k - 1 <? Z.of_nat (length scans))%Z) with false; [done|].
  symmetry. apply andb_false_iff.
  destruct Hrange; [left; apply Z.leb_gt|right; apply Z.ltb_ge]; lia.
Qed.

Lemma selection_out_of_range_witness :
  view_history_select (answering "s-1") show_name eleven_names quiet_world =
  (emit_all [Print select_prompt; Print invalid_index_line] quiet_world, Return ()).
Proof.
  apply (selection_out_of_range (answering "s-1") show_name eleven_names
           quiet_world _ "s-1" "-1" (-1) eq_refl eq_refl eq_refl).
  left. lia.
Defined.


(** X11.  A selection that starts with [s] and goes on with what [int]
    refuses prints [Invalid selection format.] and returns. *)
Theorem selection_not_a_number input display scans w w2 line rest msg :
  input "Selection: " (emit (Print select_prompt) w) = (w2, Return line) →
  str_strip line = String "s" rest → rest ≠ "" → int_result rest = inr msg →
  view_history_select input display scans w =
  (emit (Print invalid_format_line) w2, Return ()).
Proof.
  intros Hin Hs Hrest Hk.
  rewrite (view_history_select_input _ _ _ _ _ _ Hin).
  destruct (selects_s line rest Hs Hrest) as [-> ->].
  unfold try_except_ValueError, py_int. by rewrite Hk, bind_run.
Qed.

Lemma selection_not_a_number_witness :
  view_history_select (answering "scan 1") show_name eleven_names quiet_world =
  (emit_all [Print select_prompt; Print invalid_format_line] quiet_world, Return ()).
Proof.
  apply (selection_not_a_number (answering "scan 1") show_name eleven_names
           quiet_world _ "scan 1" "can 1" _ eq_refl eq_refl ltac:(discriminate) eq_refl).
Defined.


(** X12.  A selection that, once stripped, is the letter [s] alone or does
    not start with [s] is dropped without a word: nothing more is printed and
    [display_scan_details] is not called. *)
Theorem selection_ignored input display scans w w2 line :
  input "Selection: " (emit (Print select_prompt) w) = (w2, Return line) →
  (∀ rest, str_strip line ≠ String "s" rest) ∨ str_strip line = "s" →
  view_history_select input display scans w = (w2, Return ()).
Proof.
  intros Hin Hline.
  rewrite (view_history_select_input _ _ _ _ _ _ Hin).
  destruct Hline as [Hline| ->]; [|done].
  destruct (str_strip line) as [|c rest]; [done|].
  cbn [String.prefix]. destruct (ascii_dec "s" c) as [<-|_]; [|done].
  by destruct (Hline rest).
Qed.

Lemma selection_ignored_witness :
  view_history_select (answering "1") show_name eleven_names quiet_world =
  (emit_all [Print select_prompt] quiet_world, Return ()).
Proof.
  apply (selection_ignored (answering "1") show_name eleven_names quiet_world _ "1" eq_refl).
  left. intros rest. discriminate.
Defined.


(** X13.  The [try] of the selection encloses the call of
    [display_scan_details]: a [ValueError], or an error of a class derived
    from it such as [JSONDecodeError], that this call lets escape is answered
    with [Invalid selection format.], and the selection returns. *)
Theorem display_error_reported_as_format input display scans w w2 w3 line rest k name e :
  input "Selection: " (emit (Print select_prompt) w) = (w2, Return line) →
  str_strip line = String "s" rest → int_result rest = inl k →
  scans !! Z.to_nat (k - 1) = Some name → (1 ≤ k)%Z →
  display name w2 = (w3, Raise e) → is_ValueError e = true →
  view_history_select input display scans w =
  (emit (Print invalid_format_line) w3, Return ()).
Proof.
  intros Hin Hs Hk Hname Hpos Hdisp He.
  pose proof (lookup_lt_Some _ _ _ Hname) as Hlt.
  rewrite (view_history_select_input _ _ _ _ _ _ Hin).
  destruct (selects_s line rest Hs (int_result_nonempty _ _ Hk)) as [-> ->].
  unfold try_except_ValueError, py_int. rewrite Hk, bind_run. cbn [mret M_ret].
  replace ((0 <=? k - 1)%Z && (k - 1 <? Z.of_nat (length scans))%Z) with true
    by (symmetry; apply andb_true_iff; split; [apply Z.leb_le|apply Z.ltb_lt]; lia).
  rewrite bind_run. unfold list_index. rewrite Hname. cbn [mret M_ret].
  by rewrite Hdisp, He.
Qed.

Lemma display_error_reported_as_format_witness :
  view_history_select (answering "s1") (failing (Exn "JSONDecodeError" "Expecting value"))
    eleven_names quiet_world =
  (emit_all [Print select_prompt; Print invalid_format_line] quiet_world, Return ()).
Proof.
  apply (display_error_reported_as_format (answering "s1")
           (failing (Exn "JSONDecodeError" "Expecting value"))
           eleven_names quiet_world _ _ "s1" "1" 1 "k.json"
           (Exn "JSONDecodeError" "Expecting value")
           eq_refl eq_refl eq_refl eq_refl ltac:(lia) eq_refl eq_refl).
Defined.


(** X14.  The [try] of the selection starts after the prompt: an error that
    [input] raises, [ValueError] or not, leaves [view_history] as it is, once
    the prompt line has been printed. *)
Theorem input_error_escapes input display scans w w2 e :
  input "Selection: " (emit (Print select_prompt) w) = (w2, Raise e) →
  view_history_select input display scans w = (w2, Raise e).
Proof.
  intros Hin. unfold view_history_select.
  rewrite bind_run. change (print ?l ?w0) with (emit (Print l) w0, Return ()).
  cbv beta iota. unfold select_prompt in Hin. by rewrite bind_run, Hin.
Qed.

Lemma input_error_escapes_witness :
  view_history_select (λ _, raise (Exn "ValueError" "I/O operation on closed file."))
    show_name eleven_names quiet_world =
  (emit_all [Print select_prompt] quiet_world,
   Raise (Exn "ValueError" "I/O operation on closed file.")).
Proof.
  exact (input_error_escapes (λ _, raise (Exn "ValueError" "I/O operation on closed file."))
           show_name eleven_names quiet_world _ _ eq_refl).
Defined.

Lemma int_digits_decimal s : ∀ acc,
  decimal_only s = true → s ≠ "" → is_Some (int_digits acc true s) ∧
  is_Some (int_digits acc false s).
Proof.
  induction s as [|c s IH]; intros acc Hd Hne; [done|].
  cbn [decimal_only] in Hd. apply andb_true_iff in Hd as [Hc Hd].
  cbn [int_digits]. unfold is_decimal in Hc.
  destruct (digit_value c) as [d|]; [|done].
  destruct s as [|c' s]; [by split|].
  destruct (IH (10 * acc + Z.of_nat d)%Z Hd ltac:(done)) as [H _]. by split.
Qed.

Lemma digit_run_decimal s : decimal_only s = true → digit_run s = s.
Proof.
  induction s as [|c s IH]; [done|]. cbn [decimal_only digit_run].
  intros [Hc Hd]%andb_true_iff. by rewrite Hc, IH.
Qed.

Lemma count_digits_decimal s : decimal_only s = true → count_digits s = String.length s.
Proof.
  induction s as [|c s IH]; [done|]. cbn [decimal_only count_digits String.length].
  intros [Hc Hd]%andb_true_iff. by rewrite Hc, IH.
Qed.

Lemma int_unsigned_decimal s : decimal_only s = true → int_unsigned s = s.
Proof.
  destruct s as [|c s]; [done|]. cbn [decimal_only]. intros [Hc _]%andb_true_iff.
  unfold int_unsigned. cbn [int_lskip].
  assert (int_isspace c = false ∧ c ≠ "-"%char ∧ c ≠ "+"%char) as (-> & Hm & Hp).
  { unfold is_decimal, digit_value in Hc.
    destruct c as [[] [] [] [] [] [] [] []]; try discriminate Hc; by repeat split. }
  destruct c as [[] [] [] [] [] [] [] []]; done.
Qed.

(** X15.  [int] refuses more than 4300 digits with a [ValueError]: a
    selection [s] followed by that many digits is answered with
    [Invalid selection format.], not with [Invalid scan index selected.]. *)
Theorem selection_with_too_many_digits input display scans w w2 line rest :
  input "Selection: " (emit (Print select_prompt) w) = (w2, Return line) →
  str_strip line = String "s" rest → decimal_only rest = true →
  int_max_str_digits < String.length rest →
  view_history_select input display scans w =
  (emit (Print invalid_format_line) w2, Return ()).
Proof.
  intros Hin Hs Hd Hlen.
  assert (rest ≠ "") as Hrest by (intros ->; cbn in Hlen; lia).
  rewrite (view_history_select_input _ _ _ _ _ _ Hin).
  destruct (selects_s line rest Hs Hrest) as [-> ->].
  unfold try_except_ValueError, py_int, int_result.
  rewrite int_unsigned_decimal, digit_run_decimal, count_digits_decimal by done.
  rewrite bool_decide_eq_true_2 by (by apply int_digits_decimal).
  apply Nat.ltb_lt in Hlen. rewrite Hlen. cbn [andb]. by rewrite bind_run.
Qed.

Lemma selection_with_too_many_digits_witness :
  view_history_select (answering (String "s" (str_repeat "1" 4301))) show_name
    eleven_names quiet_world =
  (emit_all [Print select_prompt; Print invalid_format_line] quiet_world, Return ()).
Proof.
  apply (selection_with_too_many_digits (answering (String "s" (str_repeat "1" 4301)))
           show_name eleven_names quiet_world _ _ (str_repeat "1" 4301) eq_refl).
  - vm_compute. reflexivity.
  - vm_compute. reflexivity.
  - apply Nat.ltb_lt. vm_compute. reflexivity.
Defined.

(** X16.  The text [json.dump] writes for a record is made of printable
    ASCII characters and newlines only, whatever characters the url and the
    findings hold: the default [ensure_ascii] escapes every other one. *)
Theorem report_text_is_plain_ascii (d : ScanRecord) :
  plain_text (Json.dumps (json_of_scan d)) = true.
Proof. apply JsonText.plain_encode. Qed.

(** X17.  A report cut short never loads: when the write of [save_scan] stops
    before the end of the text, the loading step of [display_scan_details]
    raises [JSONDecodeError] on the file that is left, wherever the cut
    falls. *)
Theorem truncated_report_never_loads (d : ScanRecord) (w : World) (n : nat) (msg : string) :
  is_Some (scans_dir w) ∨ makedirs_error (disk w (disk_uses w)) = None →
  open_error (disk w (disk_uses w)) = None →
  write_error (disk w (disk_uses w)) = Some (n, msg) →
  n < String.length (Json.dumps (json_of_scan d)) →
  raised (display_scan_details_load (scan_filename (now_at w 0)) (save_scan d w).1).2 =
  Some "JSONDecodeError".
Proof.
  intros Hdir Hop Hwr Hn. rewrite save_scan_eq. cbn [fst].
  assert (files (save_world d w) !! scan_filename (now_at w 0) =
          Some (String.substring 0 n (Json.dumps (json_of_scan d)))) as Hfile.
  { unfold files at 1. cbn [save_world scans_dir]. unfold save_dir. rewrite Hop, Hwr.
    destruct Hdir as [[fs Hfs]|Hmk].
    - rewrite Hfs. cbn. by rewrite lookup_insert_eq.
    - rewrite Hmk. destruct (scans_dir w); cbn; by rewrite lookup_insert_eq. }
  unfold display_scan_details_load. rewrite bind_run. unfold read_text. rewrite Hfile.
  unfold of_outcome. cbn [snd].
  destruct (JsonText.substring_prefix n (Json.dumps (json_of_scan d))) as (x & Heq & Hx).
  apply (JsonText.loads_prefix (json_of_scan d) _ x); [apply json_of_scan_wf|done|by apply Hx].
Qed.

Lemma truncated_report_never_loads_witness :
  raised (display_scan_details_load "scan_20240315_120000.json"
            (save_scan report_a full_disk_world).1).2 = Some "JSONDecodeError".
Proof.
  apply (truncated_report_never_loads report_a full_disk_world 10
           "[Errno 28] No space left on device").
  - by right.
  - reflexivity.
  - reflexivity.
  - apply Nat.ltb_lt. vm_compute. reflexivity.
Defined.

(** X18.  The text of a report determines the record: two different records
    never give the same text, so a save without failure leaves in the file a
    text that no other record would leave. *)
Theorem different_records_different_reports (d1 d2 : ScanRecord) (w : World) :
  save_failure w = None → d1 ≠ d2 →
  files (save_scan d1 w).1 !! scan_filename (now_at w 0) ≠
  files (save_scan d2 w).1 !! scan_filename (now_at w 0).
Proof.
  intros Hok Hne. rewrite !save_scan_eq. cbn [fst].
  rewrite !save_world_files, !lookup_insert_eq by done.
  intros Heq. apply Hne, (inj json_of_scan).
  assert (Json.dumps (json_of_scan d1) = Json.dumps (json_of_scan d2)) as Ht
    by congruence.
  pose proof (JsonFacts.loads_dumps _ (json_of_scan_wf d1)) as H1.
  pose proof (JsonFacts.loads_dumps _ (json_of_scan_wf d2)) as H2.
  congruence.
Qed.

Lemma different_records_different_reports_witness :
  files (save_scan report_a quiet_world).1 !! "scan_20240315_120000.json" ≠
  files (save_scan report_b quiet_world).1 !! "scan_20240315_120000.json".
Proof.
  apply (different_records_different_reports report_a report_b quiet_world eq_refl).
  discriminate.
Defined.

(** X19.  The history does not depend on the order in which [os.listdir]
    gives the names: any two orders of the same names are sorted into the
    same list, which is in descending order. *)
Theorem history_ignores_listdir_order (names1 names2 : list string) :
  names1 ≡ₚ names2 →
  history_scans names1 = history_scans names2 ∧
  Sorted str_ge (history_scans names1) ∧
  history_scans names1 ≡ₚ names1.
Proof.
  intros Hperm. unfold history_scans. split; [|split].
  - apply sorted_reverse_unique.
    + rewrite Hperm. unfold sorted_reverse. by rewrite merge_sort_Permutation.
    + apply Sorted_merge_sort, _.
  - apply Sorted_merge_sort, _.
  - unfold sorted_reverse. by rewrite merge_sort_Permutation.
Qed.

Lemma history_ignores_listdir_order_witness :
  history_scans ["a_1.json"; "c_3.json"; "b_2.json"] =
  history_scans ["b_2.json"; "a_1.json"; "c_3.json"].
Proof.
  apply (history_ignores_listdir_order ["a_1.json"; "c_3.json"; "b_2.json"]
           ["b_2.json"; "a_1.json"; "c_3.json"]).
  etrans; [apply Permutation_skip, Permutation_swap|apply Permutation_swap].
Defined.

(** X20.  Lines 86-114 of [scan_website], when the save does not fail, leave
    in the file of the report the very record they return: the findings
    appended by the loop are in the file, in the order of the record. *)
Theorem returned_record_is_the_saved_one (r : ScanRecord) (w : World) :
  save_failure w = None →
  ∃ r', (scan_website_findings r w).2 = Return r' ∧
        (display_scan_details_load (scan_filename (now_at w 0))
           (scan_website_findings r w).1).2 = Return (json_of_scan r').
Proof.
  intros Hok. exists (add_findings r (drawn w)).
  rewrite scan_website_findings_eq. split; [done|]. cbn [fst].
  set (w1 := emit_all (findings_events (drawn w)) (tick_entropy w)).
  destruct (emit_all_frame (findings_events (drawn w)) (tick_entropy w))
    as (Hd & _ & Hc & Hcr & _ & _ & Hk & Hku & Hp & Hm).
  fold w1 in Hd, Hc, Hcr, Hk, Hku, Hp, Hm.
  destruct (save_events_frame w1 w) as [Hf _]; try done.
  assert (now_at w1 0 = now_at w 0) as Hnow by (unfold now_at; by rewrite Hc, Hcr).
  unfold display_scan_details_load. rewrite bind_run. unfold read_text.
  rewrite save_world_files, Hnow, lookup_insert_eq by (by rewrite Hf).
  unfold of_outcome. cbn [snd]. apply JsonFacts.loads_dumps, json_of_scan_wf.
Qed.

Lemma returned_record_is_the_saved_one_witness :
  ∃ r', (scan_website_findings report_a quiet_world).2 = Return r' ∧
        (display_scan_details_load "scan_20240315_120000.json"
           (scan_website_findings report_a quiet_world).1).2 = Return (json_of_scan r').
Proof. exact (returned_record_is_the_saved_one report_a quiet_world eq_refl). Defined.

(** X21.  [play_sound] never raises and touches nothing but the console,
    where it leaves one event at most: nothing without pygame, the playing of
    the file when the mixer works, a warning when it fails. *)
Theorem play_sound_never_raises (sound_file : string) (w : World) :
  (play_sound sound_file w).2 = Return () ∧
  scans_dir (play_sound sound_file w).1 = scans_dir w ∧
  clock_reads (play_sound sound_file w).1 = clock_reads w ∧
  disk_uses (play_sound sound_file w).1 = disk_uses w ∧
  new_events (play_sound sound_file) w =
    if HAS_PYGAME w then
      match mixer_error w with
      | Some msg => [Print (sound_warning msg)]
      | None => [PlayMusic sound_file]
      end
    else [].
Proof.
  unfold new_events, play_sound.
  destruct (HAS_PYGAME w); cbn [negb].
  - unfold try_except. destruct (mixer_error w) as [msg|]; cbn;
      repeat split; by rewrite drop_app_length.
  - repeat split. cbn. by rewrite drop_all.
Qed.

(** X22.  Printing in one of the four colours that [ColorPrinter] defines
    never fails: it prints one line, made of the escape code of the colour,
    the text as it is and the code of [RESET], and changes nothing else. *)
Theorem print_colored_defined_colours (name text : string) (w : World) :
  name ∈ ["RESET"; "GREEN"; "RED"; "YELLOW"] →
  ∃ code, class_attr ColorPrinter name = Some code ∧
          print_colored name text w =
          (emit (Print (code +:+ text +:+ String ESC "[0m")) w, Return ()).
Proof.
  rewrite !elem_of_cons, elem_of_nil.
  intros [->|[->|[->|[->|[]]]]]; eexists; (split; [reflexivity|]);
    unfold print_colored; by rewrite bind_run.
Qed.

Lemma print_colored_defined_colours_witness :
  print_colored "RED" "x" quiet_world =
  (emit (Print (String ESC "[91m" +:+ "x" +:+ String ESC "[0m")) quiet_world, Return ()).
Proof.
  destruct (print_colored_defined_colours "RED" "x" quiet_world) as (code & Hc & ->).
  - apply (bool_decide_unpack _). vm_compute. reflexivity.
  - injection Hc as <-. reflexivity.
Defined.

